(** * Verification development for DB_assistbot ([src/main.py])

    A shallow embedding of the query pipeline of the Northwind Telegram bot:
    the SQL safety gate [DatabaseManager._is_query_safe], the query executor
    [DatabaseManager.execute_query], the schema cache
    [DatabaseManager.get_schema_info], the SQL cleaning and synthesis loop of
    [OllamaLLM], the record sanitizer, the per-user [RateLimiter] and the
    message handler [handle_message] with [is_greeting] and
    [send_long_message].

    Python [str] values are modelled as [list ascii], every [ascii] being a
    code point in 0..255 (Latin-1); the character predicates below follow
    Python's Unicode tables on that range.  The [re] module is modelled by a
    backtracking matcher that returns the end positions of a pattern in the
    order in which Python's engine tries them. *)

From Stdlib Require Import Ascii String QArith Lqa.
From stdpp Require Import base list gmap.

Local Open Scope list_scope.
Import ListNotations.

(* ================================================================== *)
(** * Python strings *)

Definition pystr := list ascii.

(** A Python string literal. *)
Definition lit (s : string) : pystr := list_ascii_of_string s.

Definition code (c : ascii) : nat := nat_of_ascii c.

Definition in_range (lo hi : nat) (c : ascii) : bool :=
  Nat.leb lo (code c) && Nat.leb (code c) hi.

Definition ch_eqb (a b : ascii) : bool := Nat.eqb (code a) (code b).

(** [str.isspace] and the [\s] class of [re] on code points 0..255. *)
Definition is_space (c : ascii) : bool :=
  in_range 9 13 c || in_range 28 32 c || Nat.eqb (code c) 133
  || Nat.eqb (code c) 160.

(** [\d]: Unicode decimal digits; in 0..255 only '0'..'9'. *)
Definition is_digit (c : ascii) : bool := in_range 48 57 c.

(** [\w] (and therefore [\b]): [str.isalnum] or '_'. *)
Definition is_word (c : ascii) : bool :=
  in_range 48 57 c || in_range 65 90 c || Nat.eqb (code c) 95
  || in_range 97 122 c || Nat.eqb (code c) 170 || in_range 178 179 c
  || Nat.eqb (code c) 181 || in_range 185 186 c || in_range 188 190 c
  || in_range 192 214 c || in_range 216 246 c || in_range 248 255 c.

(** [str.lower] on one code point. *)
Definition lower_char (c : ascii) : ascii :=
  if in_range 65 90 c || in_range 192 214 c || in_range 216 222 c
  then ascii_of_nat (code c + 32) else c.

Definition py_lower (s : pystr) : pystr := map lower_char s.

(** [str.strip()] *)
Definition lstrip (s : pystr) : pystr :=
  (fix go s := match s with
               | c :: t => if is_space c then go t else s
               | [] => [] end) s.

Definition py_strip (s : pystr) : pystr := rev (lstrip (rev (lstrip s))).

Fixpoint starts_with (p s : pystr) : bool :=
  match p, s with
  | [], _ => true
  | a :: p', b :: s' => ch_eqb a b && starts_with p' s'
  | _ :: _, [] => false
  end.

(** [p in s] *)
Fixpoint contains (p s : pystr) : bool :=
  starts_with p s || match s with [] => false | _ :: s' => contains p s' end.

Definition ends_with (p s : pystr) : bool := starts_with (rev p) (rev s).

(** [s.split(sep)] for a one-character separator. *)
Fixpoint split_on (sep : ascii) (s : pystr) : list pystr :=
  match s with
  | [] => [[]]
  | c :: t =>
      if ch_eqb c sep then [] :: split_on sep t
      else match split_on sep t with
           | w :: ws => (c :: w) :: ws
           | [] => [[c]]
           end
  end.

(** [sep.join(ws)] *)
Fixpoint join (sep : pystr) (ws : list pystr) : pystr :=
  match ws with
  | [] => []
  | [w] => w
  | w :: ws' => w ++ sep ++ join sep ws'
  end.

(** [s.split(sep)[0]] *)
Definition first_field (sep : ascii) (s : pystr) : pystr :=
  match split_on sep s with w :: _ => w | [] => [] end.

(* ================================================================== *)
(** * The [re] module *)

Module Re.

Inductive re : Type :=
| Chr (c : ascii)                 (* a literal character *)
| Cls (p : ascii -> bool)         (* a character class *)
| Dot                             (* . *)
| Seq (r1 r2 : re)
| Alt (r1 r2 : re)                (* r1|r2, left alternative first *)
| Star (greedy : bool) (r : re)   (* r* (greedy) or r*? (lazy) *)
| WordB                           (* \b *)
| EndL.                           (* $ *)

Record flags := { icase : bool; dotall : bool; multiline : bool }.

Definition noflags : flags := {| icase := false; dotall := false; multiline := false |}.

Section Matcher.
Variable fl : flags.
Variable s : pystr.

Definition word_at (i : nat) : bool :=
  match s !! i with Some c => is_word c | None => false end.

(** [\b]: the characters on the two sides differ in being word characters. *)
Definition boundary (i : nat) : bool :=
  match i with
  | O => word_at 0
  | S k => xorb (word_at k) (word_at i)
  end.

(** [$]: end of input, before a final newline, or (with [re.MULTILINE])
    before any newline. *)
Definition at_end (i : nat) : bool :=
  Nat.eqb i (length s)
  || match s !! i with
     | Some c => ch_eqb c "010"%char
                 && (multiline fl || Nat.eqb (S i) (length s))
     | None => false
     end.

Definition chr_match (c d : ascii) : bool :=
  if icase fl then ch_eqb (lower_char d) (lower_char c) else ch_eqb d c.

(** All end positions of a match of [r] starting at [i], in the order in
    which a backtracking engine tries them. *)
Fixpoint ends (r : re) (i : nat) : list nat :=
  match r with
  | Chr c => match s !! i with
             | Some d => if chr_match c d then [S i] else []
             | None => [] end
  | Cls p => match s !! i with
             | Some d => if p d then [S i] else []
             | None => [] end
  | Dot => match s !! i with
           | Some d => if dotall fl || negb (ch_eqb d "010"%char)
                       then [S i] else []
           | None => [] end
  | Seq a b => flat_map (ends b) (ends a i)
  | Alt a b => ends a i ++ ends b i
  | Star g a =>
      (fix go (k i : nat) : list nat :=
         match k with
         | O => [i]
         | S k' =>
             let more := flat_map (fun j => if Nat.ltb i j then go k' j else [])
                                  (ends a i) in
             if g then more ++ [i] else i :: more
         end) (S (length s - i)) i
  | WordB => if boundary i then [i] else []
  | EndL => if at_end i then [i] else []
  end.

(** The leftmost match starting at or after [i]: [(start, end)]. *)
Fixpoint search_from (r : re) (k i : nat) : option (nat * nat) :=
  match k with
  | O => None
  | S k' => match ends r i with
            | j :: _ => Some (i, j)
            | [] => search_from r k' (S i)
            end
  end.

Definition search_at (r : re) (i : nat) : option (nat * nat) :=
  search_from r (S (length s - i)) i.

(** [re.sub(pattern, repl, s)]: replace the non-overlapping matches from
    left to right.  (None of the patterns of the program matches the empty
    string; an empty match is replaced and the scan moves one character on.) *)
Fixpoint sub_from (r : re) (repl : pystr) (k i : nat) : pystr :=
  match k with
  | O => drop i s
  | S k' =>
      match search_at r i with
      | None => drop i s
      | Some (st, en) =>
          take (st - i) (drop i s) ++ repl ++
          (if Nat.ltb st en then sub_from r repl k' en
           else match s !! st with
                | Some c => c :: sub_from r repl k' (S st)
                | None => []
                end)
      end
  end.

End Matcher.

Definition search (fl : flags) (r : re) (s : pystr) : bool :=
  match search_at fl s r 0 with Some _ => true | None => false end.

Definition sub (fl : flags) (r : re) (repl s : pystr) : pystr :=
  sub_from fl s r repl (S (length s)) 0.

(** Pattern-building helpers. *)
Fixpoint str (l : pystr) : re :=
  match l with
  | [] => Star true (Cls (fun _ => false))    (* matches the empty string *)
  | [c] => Chr c
  | c :: t => Seq (Chr c) (str t)
  end.

Definition word (w : string) : re := str (lit w).

Fixpoint alts (rs : list re) : re :=
  match rs with
  | [] => Cls (fun _ => false)
  | [r] => r
  | r :: t => Alt r (alts t)
  end.

Fixpoint seqs (rs : list re) : re :=
  match rs with
  | [] => Star true (Cls (fun _ => false))
  | [r] => r
  | r :: t => Seq r (seqs t)
  end.

Definition star (r : re) : re := Star true r.
Definition plus (r : re) : re := Seq r (Star true r).
Fixpoint rep_min (n : nat) (r : re) : re :=
  match n with O => Star true r | S n' => Seq r (rep_min n' r) end.

Definition dotstar : re := Star true Dot.
Definition space : re := Cls is_space.
Definition oneof (l : string) : ascii -> bool :=
  fun c => existsb (ch_eqb c) (lit l).

End Re.

Import Re.

(* ================================================================== *)
(** * [DatabaseManager._is_query_safe] *)

Definition dangerous_patterns : list re :=
  [ (* \b(drop|delete|truncate|alter|shutdown|insert|update|merge)\b *)
    seqs [WordB;
          alts (map word ["drop"; "delete"; "truncate"; "alter"; "shutdown";
                          "insert"; "update"; "merge"]%string);
          WordB];
    (* ;.*\b(exec|execute|xp_cmdshell|sp_)\b *)
    seqs [Chr ";"; dotstar; WordB;
          alts (map word ["exec"; "execute"; "xp_cmdshell"; "sp_"]%string);
          WordB];
    (* \bunion\b.*\bselect\b *)
    seqs [WordB; word "union"; WordB; dotstar; WordB; word "select"; WordB];
    (* \bselect\b.*\bfrom\b.*\bwhere\b.*\b1\s*=\s*1\b *)
    seqs [WordB; word "select"; WordB; dotstar; WordB; word "from"; WordB;
          dotstar; WordB; word "where"; WordB; dotstar;
          WordB; Chr "1"; star space; Chr "="; star space; Chr "1"; WordB];
    (* /\*.*\*/ *)
    seqs [Chr "/"; Chr "*"; dotstar; Chr "*"; Chr "/"];
    (* --.*$ *)
    seqs [Chr "-"; Chr "-"; dotstar; EndL];
    (* [\/\\] *)
    Cls (oneof "/\") ].

Definition _is_query_safe (query : pystr) : bool :=
  let query_lower := py_lower query in
  negb (existsb (fun pattern => search noflags pattern query_lower)
                dangerous_patterns).

(* ================================================================== *)
(** * Configuration constants *)

Definition MAX_SQL_ATTEMPTS : nat := 3.
Definition MAX_REQUESTS_PER_MINUTE : nat := 10.
Definition MAX_RESULTS : nat := 50.

(** [str(n)] for a natural number. *)
Fixpoint digits_rev (fuel n : nat) : pystr :=
  match fuel with
  | O => []
  | S f => ascii_of_nat (48 + n mod 10)
           :: (if Nat.ltb n 10 then [] else digits_rev f (n / 10))
  end.

Definition py_str_nat (n : nat) : pystr := rev (digits_rev (S n) n).

(** [f"select top {MAX_RESULTS} "] and [f"top {MAX_RESULTS}"] *)
Definition select_top : pystr := lit "select top " ++ py_str_nat MAX_RESULTS ++ [" "%char].
Definition top_max : pystr := lit "top " ++ py_str_nat MAX_RESULTS.

(* ================================================================== *)
(** * [OllamaLLM._clean_sql] *)

Definition fl_dotall_icase : flags := {| icase := true; dotall := true; multiline := false |}.
Definition fl_dotall : flags := {| icase := false; dotall := true; multiline := false |}.
Definition fl_multiline : flags := {| icase := false; dotall := false; multiline := true |}.
Definition fl_icase : flags := {| icase := true; dotall := false; multiline := false |}.

(** [r'select\s+'] *)
Definition select_ws : re := Seq (word "select") (plus space).

Definition _clean_sql (sql0 : pystr) : pystr :=
  (* Remove code block markers and everything after them *)
  let sql := sub fl_dotall_icase (seqs [str (lit "```"); dotstar; EndL]) [] sql0 in
  let sql := sub fl_dotall_icase (seqs [str (lit "[/INST]"); dotstar; EndL]) [] sql in
  let sql := sub fl_dotall_icase (seqs [str (lit "<<SYS>>"); dotstar; EndL]) [] sql in
  (* Remove any remaining comments *)
  let sql := sub fl_dotall (seqs [Chr "/"; Chr "*"; Star false Dot; Chr "*"; Chr "/"]) [] sql in
  let sql := sub fl_multiline (seqs [Chr "-"; Chr "-"; dotstar; EndL]) [] sql in
  (* Remove problematic characters and extra whitespace *)
  let sql := sub noflags (Cls (oneof "/\")) [] sql in
  let sql := py_strip (sub noflags (plus space) [" "%char] sql) in
  (* Ensure proper SELECT TOP syntax *)
  let sql := if contains (lit "select") (py_lower sql)
                && negb (contains (lit "top ") (py_lower sql))
             then sub fl_icase select_ws select_top sql else sql in
  (* Remove any trailing semicolons and everything after them *)
  let sql := py_strip (first_field ";" sql) in
  (* Final validation - only keep the first complete SQL statement *)
  let sql_lines :=
    (fix keep (lines : list pystr) : list pystr :=
       match lines with
       | [] => []
       | line :: rest =>
           let line := py_strip line in
           if negb (bool_decide (line = [])) then
             if ends_with [";"%char] line then [line] else line :: keep rest
           else keep rest
       end) (split_on "010"%char sql) in
  py_strip (join [" "%char] sql_lines).

(* ================================================================== *)
(** * [OllamaLLM._validate_sql] *)

(** [join\s+<a>\s+.*=\s*<b>] *)
Definition bad_join (a b : string) : re :=
  seqs [word "join"; plus space; word a; plus space; dotstar; Chr "=";
        star space; word b].

Definition _validate_sql (sql : pystr) : bool :=
  let sql_lower := py_lower sql in
  if search noflags (bad_join "customers" "employees.employeeid") sql_lower
     || search noflags (bad_join "employees" "customers.customerid") sql_lower
  then false
  else
    let invalid_joins :=
      [ bad_join "products" "employees.employeeid";
        bad_join "orders" "suppliers.supplierid";
        seqs [bad_join "orders" "shippers.shipperid"; plus space; dotstar;
              word "!="; star space; word "orders.shipvia"] ] in
    negb (existsb (fun pattern => search noflags pattern sql_lower) invalid_joins).

(* ================================================================== *)
(** * [OllamaLLM.generate_sql] *)

(** The validation checks and the TOP normalisation of one attempt, on the
    cleaned model output; [None] stands for the [ValueError] raised by a
    failing check. *)
Definition validate_and_normalise (sql : pystr) : option pystr :=
  if negb (starts_with (lit "select") (py_strip (py_lower sql))) then None
  else if existsb (fun c => contains c (py_lower sql)) [lit "/*"; lit "--"; lit "/"] then None
  else if negb (contains (lit "top") (py_lower sql))
          && contains (lit "limit") (py_lower sql) then None
  else if negb (_is_query_safe sql) then None
  else if negb (_validate_sql sql) then None
  else
    (* Ensure TOP clause is present *)
    Some (if negb (contains top_max (py_lower sql))
          then sub fl_icase select_ws select_top sql else sql).

(** One attempt.  [model attempt] is what the prompting stage produces at
    that attempt: [None] when reading the schema or calling the model
    raises, [Some raw] for the model's [response['response']]. *)
Definition sql_attempt (model : nat -> option pystr) (attempt : nat) : option pystr :=
  match model attempt with
  | None => None
  | Some raw => validate_and_normalise (_clean_sql raw)
  end.

Fixpoint attempts_loop (model : nat -> option pystr) (attempts : list nat) : option pystr :=
  match attempts with
  | [] => None
  | attempt :: rest =>
      match sql_attempt model attempt with
      | Some sql => Some sql
      | None => if Nat.eqb attempt (MAX_SQL_ATTEMPTS - 1) then None
                else attempts_loop model rest      (* time.sleep(1 + attempt) *)
      end
  end.

Definition generate_sql (model : nat -> option pystr) : option pystr :=
  attempts_loop model (seq 0 MAX_SQL_ATTEMPTS).

(* ================================================================== *)
(** * Exceptions and database effects *)

(** The exceptions raised along [execute_query]; all of them are subclasses
    of Python's [Exception]. *)
Inductive exn : Type :=
| PyodbcError (msg : pystr)   (* pyodbc.Error; [msg] is [str(e)] *)
| ValueError                  (* missing DB_SERVER / DB_NAME *)
| ConnectionError             (* all connection attempts failed *)
| RuntimeError                (* contextlib: generator didn't stop *)
| OtherError.                 (* any other exception of the driver *)

Definition is_pyodbc (e : exn) : bool :=
  match e with PyodbcError _ => true | _ => false end.

(** Observable database actions. *)
Inductive event : Type :=
| EvConnect (attempt : nat)
| EvExecute (query : pystr)
| EvCommit
| EvRollback
| EvClose.

Inductive result (A : Type) : Type :=
| Ret (a : A)
| Raise (e : exn).
Arguments Ret {A} a.
Arguments Raise {A} e.

(** Computations that may raise and that record database actions. *)
Definition M (A : Type) : Type := (result A * list event)%type.

Definition mret {A} (a : A) : M A := (Ret a, []).
Definition mraise {A} (e : exn) : M A := (Raise e, []).
Definition mbind {A B} (m : M A) (f : A -> M B) : M B :=
  match m with
  | (Ret a, t1) => let '(r, t2) := f a in (r, t1 ++ t2)
  | (Raise e, t1) => (Raise e, t1)
  end.
Definition emit (ev : event) : M unit := (Ret tt, [ev]).

Notation "m ;;; k" := (mbind m (fun _ => k)) (at level 100, right associativity).

(** [try: m except Exception: h] *)
Definition try_except {A} (m : M A) (h : exn -> M A) : M A :=
  match m with
  | (Ret a, t) => (Ret a, t)
  | (Raise e, t1) => let '(r, t2) := h e in (r, t1 ++ t2)
  end.

(** A cell of a result row, and a row as the dict [dict(zip(columns, row))]. *)
Inductive cell : Type :=
| CNull
| CStr (s : pystr)
| CNum (n : Z).

Definition row := list (pystr * cell).

(** Assigning [d[k] = v] in an insertion-ordered dict. *)
Fixpoint dict_set {V} (k : pystr) (v : V) (d : list (pystr * V)) : list (pystr * V) :=
  match d with
  | [] => [(k, v)]
  | (k', v') :: t => if bool_decide (k = k') then (k', v) :: t
                     else (k', v') :: dict_set k v t
  end.

Definition dict_of_pairs {V} (l : list (pystr * V)) : list (pystr * V) :=
  fold_left (fun d kv => dict_set kv.1 kv.2 d) l [].

(** What [cursor.execute(query)], [cursor.description] and
    [cursor.fetchall()] give for a query. *)
Inductive exec_outcome : Type :=
| XError (msg : pystr)                       (* pyodbc.Error, str(e) = msg *)
| XOther                                     (* another exception *)
| XNoDescription                             (* cursor.description is None *)
| XRows (columns : list pystr) (rows : list (list cell)).

(** The database server and the process environment, as seen by the
    program. *)
Record driver : Type := {
  env_set : bool;                          (* DB_SERVER and DB_NAME set *)
  connect_fails : nat -> option pystr;     (* attempt -> pyodbc.Error text *)
  execute_outcome : pystr -> exec_outcome;
  commit_fails : option pystr              (* conn.commit() raises *)
}.

(* ================================================================== *)
(** * [DatabaseManager.get_connection] used as [with ... as conn: body] *)

Section Connection.
Context {A : Type} (drv : driver) (body : M A).

(** [k] counts the remaining iterations of [while attempt < MAX_SQL_ATTEMPTS];
    [yielded] records that the generator has already yielded once, after
    which a second [yield conn] makes [contextlib] raise [RuntimeError]. *)
Fixpoint conn_loop (yielded : bool) (k attempt : nat) : M A :=
  match k with
  | O => mraise ConnectionError
  | S k' =>
      if negb (env_set drv) then mraise ValueError else
      match connect_fails drv attempt with
      | Some msg => conn_loop yielded k' (S attempt)   (* except pyodbc.Error *)
      | None =>
          emit (EvConnect attempt) ;;;
          if yielded then mraise RuntimeError else
          match body with
          | (Ret v, tr) =>
              match commit_fails drv with
              | None => (Ret v, tr ++ [EvCommit; EvClose])
              | Some msg =>
                  (* rollback, close, re-raise into the retry handler *)
                  let '(r, tr') := conn_loop true k' (S attempt) in
                  (r, tr ++ [EvRollback; EvClose] ++ tr')
              end
          | (Raise e, tr) =>
              if is_pyodbc e then
                let '(r, tr') := conn_loop true k' (S attempt) in
                (r, tr ++ [EvRollback; EvClose] ++ tr')
              else (Raise e, tr ++ [EvRollback; EvClose])
          end
      end
  end.

Definition with_connection : M A := conn_loop false MAX_SQL_ATTEMPTS 0.

End Connection.

(* ================================================================== *)
(** * [DatabaseManager.execute_query] *)

Definition query_result := (list row * option pystr)%type.

Definition cursor_body (drv : driver) (query : pystr) : M query_result :=
  emit (EvExecute query) ;;;
  match execute_outcome drv query with
  | XError msg =>
      let error_msg := first_field "010"%char msg in
      mret ([], Some (lit "SQL error: " ++ error_msg))
  | XOther => mraise OtherError
  | XNoDescription => mret ([], Some (lit "No results returned"))
  | XRows columns rows =>
      mret (map (fun r => dict_of_pairs (zip columns r)) rows, None)
  end.

Definition execute_query_body (drv : driver) (query : pystr) : M query_result :=
  if negb (starts_with (lit "select") (py_lower (py_strip query))) then
    mret ([], Some (lit "Only SELECT queries are allowed"))
  else if negb (_is_query_safe query) then
    mret ([], Some (lit "Query contains potentially unsafe operations"))
  else with_connection drv (cursor_body drv query).

Definition execute_query (drv : driver) (query : pystr) : M query_result :=
  try_except (execute_query_body drv query)
             (fun _ => mret ([], Some (lit "Unexpected database error"))).

(* ================================================================== *)
(** * [OllamaLLM._sanitize_data] and [OllamaLLM._format_all_records] *)

Definition is_ascii_letter (c : ascii) : bool := in_range 65 90 c || in_range 97 122 c.
Definition is_ascii_alnum (c : ascii) : bool := is_ascii_letter c || in_range 48 57 c.

(** [\b[A-Za-z0-9._%+-]+@[A-Za-z0-9.-]+\.[A-Z|a-z]{2,}\b] *)
Definition email_re : re :=
  seqs [WordB;
        plus (Cls (fun c => is_ascii_alnum c || oneof "._%+-" c));
        Chr "@";
        plus (Cls (fun c => is_ascii_alnum c || oneof ".-" c));
        Chr ".";
        rep_min 2 (Cls (fun c => is_ascii_letter c || oneof "|" c));
        WordB].

(** [\b\d{10,}\b] *)
Definition digits_re : re := seqs [WordB; rep_min 10 (Cls is_digit); WordB].

Definition sensitive_words : list pystr :=
  map lit ["password"; "secret"; "address"; "phone"; "fax"]%string.

Definition REDACTED : pystr := lit "[REDACTED]".

Definition _sanitize_data (value : pystr) : pystr :=
  let value := sub noflags email_re (lit "[EMAIL]") value in
  let value := sub noflags digits_re (lit "[PHONE]") value in
  if existsb (fun w => contains w (py_lower value)) sensitive_words
  then REDACTED else value.

(** [str(v)] for a non-null cell. *)
Definition py_str_cell (v : cell) : pystr :=
  match v with
  | CNull => lit "None"
  | CStr s => s
  | CNum n => (if (n <? 0)%Z then lit "-" else [])
              ++ py_str_nat (Z.to_nat (Z.abs n))
  end.

(** The bullet "• " and the header "📌 Record {idx}:" contain code points
    above 255; they are written here with ASCII stand-ins. *)
Definition bullet : pystr := lit "* ".
Definition record_header (idx : nat) : pystr := lit "Record " ++ py_str_nat idx ++ lit ":".

(** [f"• {k}: {self._sanitize_data(str(v))}"], only for non-null cells. *)
Definition format_field (kv : pystr * cell) : option pystr :=
  match kv.2 with
  | CNull => None
  | v => Some (bullet ++ kv.1 ++ lit ": " ++ _sanitize_data (py_str_cell v))
  end.

(** The rows of one query share their columns, which are the columns of
    the DataFrame. *)
Definition _format_all_records (rows : list row) : pystr :=
  join [ "010"%char; "010"%char ]
       (imap (fun i r => join [ "010"%char ]
                              (record_header (S i) :: omap format_field r)) rows).

(* ================================================================== *)
(** * [RateLimiter.check_rate_limit] *)

(** [self.user_requests]: user id -> timestamps of accepted requests.
    Times are [time.time()] values, taken as rationals.  The whole method
    runs under [self.lock], so one call is one atomic step. *)
Abbreviation user_requests := (gmap Z (list Q)).

(** [now - t < 60] *)
Definition fresh (now t : Q) : bool := negb (Qle_bool 60 (now - t)).

Definition check_rate_limit (user_id : Z) (now : Q) (st : user_requests)
  : bool * user_requests :=
  let st := match st !! user_id with
            | Some _ => st
            | None => <[user_id := []]> st          (* New user detected *)
            end in
  let w := List.filter (fresh now) (default [] (st !! user_id)) in
  let st := <[user_id := w]> st in
  if Nat.leb MAX_REQUESTS_PER_MINUTE (length w) then
    (false, st)                   (* reply "Too many requests" *)
  else (true, <[user_id := w ++ [now]]> st).

(** A sequence of requests of one user at the given times. *)
Fixpoint checks (user_id : Z) (times : list Q) (st : user_requests)
  : list bool * user_requests :=
  match times with
  | [] => ([], st)
  | now :: rest =>
      let '(b, st') := check_rate_limit user_id now st in
      let '(bs, st'') := checks user_id rest st' in
      (b :: bs, st'')
  end.

(** Requests of any users at any times. *)
Fixpoint run_requests (reqs : list (Z * Q)) (st : user_requests) : user_requests :=
  match reqs with
  | [] => st
  | (u, now) :: rest => run_requests rest (check_rate_limit u now st).2
  end.

(* ================================================================== *)
(** * The [json] module, on the values the schema cache stores *)

Module Json.

Local Set Warnings "-register-all".

(** JSON values without numbers (the schema snapshot holds none). *)
Inductive json : Type :=
| JNull
| JBool (b : bool)
| JStr (s : pystr)
| JArr (l : list json)
| JObj (l : list (pystr * json)).

Definition nl : ascii := "010"%char.
Definition dq : ascii := "034"%char.
Definition bs : ascii := "\"%char.

Definition hex_digit (n : nat) : ascii :=
  match nth_error (lit "0123456789abcdef") n with Some c => c | None => "0"%char end.

(** [json.encoder.py_encode_basestring_ascii] on one character. *)
Definition encode_char (c : ascii) : pystr :=
  if ch_eqb c dq then [bs; dq]
  else if ch_eqb c bs then [bs; bs]
  else if Nat.eqb (code c) 8 then [bs; "b"%char]
  else if Nat.eqb (code c) 12 then [bs; "f"%char]
  else if Nat.eqb (code c) 10 then [bs; "n"%char]
  else if Nat.eqb (code c) 13 then [bs; "r"%char]
  else if Nat.eqb (code c) 9 then [bs; "t"%char]
  else if Nat.ltb (code c) 32 || Nat.ltb 126 (code c) then
    [bs; "u"%char; "0"%char; "0"%char; hex_digit (code c / 16); hex_digit (code c mod 16)]
  else [c].

Definition encode_string (s : pystr) : pystr := dq :: flat_map encode_char s ++ [dq].

Definition indent (lvl : nat) : pystr := repeat " "%char (2 * lvl).

(** [json.dump(obj, f, indent=2)] at nesting level [lvl]. *)
Fixpoint dump (lvl : nat) (j : json) : pystr :=
  match j with
  | JNull => lit "null"
  | JBool true => lit "true"
  | JBool false => lit "false"
  | JStr s => encode_string s
  | JArr [] => lit "[]"
  | JArr l =>
      ["["%char] ++ nl :: indent (S lvl)
      ++ join (lit "," ++ nl :: indent (S lvl)) (map (dump (S lvl)) l)
      ++ nl :: indent lvl ++ ["]"%char]
  | JObj [] => lit "{}"
  | JObj l =>
      ["{"%char] ++ nl :: indent (S lvl)
      ++ join (lit "," ++ nl :: indent (S lvl))
              (map (fun kv => encode_string kv.1 ++ lit ": " ++ dump (S lvl) kv.2) l)
      ++ nl :: indent lvl ++ ["}"%char]
  end.

Definition is_json_ws (c : ascii) : bool :=
  ch_eqb c " "%char || ch_eqb c "009"%char || ch_eqb c nl || ch_eqb c "013"%char.

Fixpoint skip_ws (s : pystr) : pystr :=
  match s with
  | c :: r => if is_json_ws c then skip_ws r else s
  | [] => []
  end.

Definition hex_val (c : ascii) : option nat :=
  if in_range 48 57 c then Some (code c - 48)
  else if in_range 97 102 c then Some (code c - 87)
  else if in_range 65 70 c then Some (code c - 55)
  else None.

Definition unescape (e : ascii) : option ascii :=
  if ch_eqb e dq then Some dq
  else if ch_eqb e bs then Some bs
  else if ch_eqb e "/"%char then Some "/"%char
  else if ch_eqb e "b"%char then Some "008"%char
  else if ch_eqb e "f"%char then Some "012"%char
  else if ch_eqb e "n"%char then Some nl
  else if ch_eqb e "r"%char then Some "013"%char
  else if ch_eqb e "t"%char then Some "009"%char
  else None.

Definition ocons (c : ascii) (o : option (pystr * pystr)) : option (pystr * pystr) :=
  match o with Some (x, r) => Some (c :: x, r) | None => None end.

(** [json.decoder.scanstring] (strict), after the opening quote; code
    points above 255 are outside the model and rejected. *)
Fixpoint parse_string (s : pystr) : option (pystr * pystr) :=
  match s with
  | [] => None
  | c :: r =>
      if ch_eqb c dq then Some ([], r)
      else if ch_eqb c bs then
        match r with
        | e :: r' =>
            if ch_eqb e "u"%char then
              match r' with
              | h1 :: h2 :: h3 :: h4 :: r'' =>
                  match hex_val h1, hex_val h2, hex_val h3, hex_val h4 with
                  | Some a, Some b, Some c', Some d =>
                      let n := ((a * 16 + b) * 16 + c') * 16 + d in
                      if Nat.ltb n 256 then ocons (ascii_of_nat n) (parse_string r'')
                      else None
                  | _, _, _, _ => None
                  end
              | _ => None
              end
            else match unescape e with
                 | Some c' => ocons c' (parse_string r')
                 | None => None
                 end
        | [] => None
        end
      else if Nat.ltb (code c) 32 then None
      else ocons c (parse_string r)
  end.

(** [json.decoder.JSONDecoder.raw_decode] with fuel; objects become dicts. *)
Fixpoint parse_value (n : nat) (s : pystr) {struct n} : option (json * pystr) :=
  match n with
  | O => None
  | S n' =>
      match s with
      | [] => None
      | c :: r =>
          if ch_eqb c dq then
            match parse_string r with Some (x, r') => Some (JStr x, r') | None => None end
          else if ch_eqb c "{"%char then
            match skip_ws r with
            | c' :: r' => if ch_eqb c' "}"%char then Some (JObj [], r')
                          else parse_members n' (c' :: r') []
            | [] => None
            end
          else if ch_eqb c "["%char then
            match skip_ws r with
            | c' :: r' => if ch_eqb c' "]"%char then Some (JArr [], r')
                          else parse_items n' (c' :: r') []
            | [] => None
            end
          else if starts_with (lit "null") s then Some (JNull, drop 4 s)
          else if starts_with (lit "true") s then Some (JBool true, drop 4 s)
          else if starts_with (lit "false") s then Some (JBool false, drop 5 s)
          else None
      end
  end
with parse_items (n : nat) (s : pystr) (acc : list json) {struct n} : option (json * pystr) :=
  match n with
  | O => None
  | S n' =>
      match parse_value n' s with
      | None => None
      | Some (v, r) =>
          match skip_ws r with
          | c :: r' =>
              if ch_eqb c ","%char then parse_items n' (skip_ws r') (v :: acc)
              else if ch_eqb c "]"%char then Some (JArr (rev (v :: acc)), r')
              else None
          | [] => None
          end
      end
  end
with parse_members (n : nat) (s : pystr) (acc : list (pystr * json)) {struct n}
  : option (json * pystr) :=
  match n with
  | O => None
  | S n' =>
      match s with
      | c :: r =>
          if ch_eqb c dq then
            match parse_string r with
            | None => None
            | Some (k, r1) =>
                match skip_ws r1 with
                | c1 :: r2 =>
                    if ch_eqb c1 ":"%char then
                      match parse_value n' (skip_ws r2) with
                      | None => None
                      | Some (v, r3) =>
                          match skip_ws r3 with
                          | c2 :: r4 =>
                              if ch_eqb c2 ","%char then
                                parse_members n' (skip_ws r4) ((k, v) :: acc)
                              else if ch_eqb c2 "}"%char then
                                Some (JObj (dict_of_pairs (rev ((k, v) :: acc))), r4)
                              else None
                          | [] => None
                          end
                      end
                    else None
                | [] => None
                end
            end
          else None
      | [] => None
      end
  end.

(** [json.loads(text)]: surrounding whitespace only. *)
Definition load (text : pystr) : option json :=
  let s := skip_ws text in
  match parse_value (S (length s)) s with
  | Some (j, r) => if bool_decide (skip_ws r = []) then Some j else None
  | None => None
  end.

(** Well-formed values: the keys of every object are pairwise distinct,
    as in a Python dict. *)
Fixpoint wfb (j : json) : bool :=
  match j with
  | JArr l => forallb wfb l
  | JObj l => bool_decide (NoDup (map fst l)) && forallb (fun kv => wfb kv.2) l
  | _ => true
  end.

(** The parser fuel a value needs. *)
Fixpoint jsize (j : json) : nat :=
  match j with
  | JArr l => S (list_sum (map (fun x => S (jsize x)) l))
  | JObj l => S (list_sum (map (fun kv => S (jsize kv.2)) l))
  | _ => 1
  end.

(** Induction on [json] with hypotheses for the elements of arrays and
    objects. *)
Section json_ind_nested.
Variable P : json -> Prop.
Hypothesis Hnull : P JNull.
Hypothesis Hbool : forall b, P (JBool b).
Hypothesis Hstr : forall s, P (JStr s).
Hypothesis Harr : forall l, Forall P l -> P (JArr l).
Hypothesis Hobj : forall l, Forall (fun kv => P kv.2) l -> P (JObj l).

Fixpoint json_ind_nested (j : json) : P j :=
  match j with
  | JNull => Hnull
  | JBool b => Hbool b
  | JStr s => Hstr s
  | JArr l =>
      Harr l ((fix go (l : list json) : Forall P l :=
                 match l with
                 | [] => @List.Forall_nil _ _
                 | x :: t => @List.Forall_cons _ _ x t (json_ind_nested x) (go t)
                 end) l)
  | JObj l =>
      Hobj l ((fix go (l : list (pystr * json)) : Forall (fun kv => P kv.2) l :=
                 match l with
                 | [] => @List.Forall_nil _ _
                 | kv :: t => @List.Forall_cons _ _ kv t (json_ind_nested kv.2) (go t)
                 end) l)
  end.
End json_ind_nested.

(** The separator [json.dump] writes between the items of a container at
    nesting level [lvl]. *)
Definition sep_at (lvl : nat) : pystr := lit "," ++ nl :: indent lvl.

End Json.

Import Json.

(* ================================================================== *)
(** * [DatabaseManager.get_schema_info] *)

(** A row of the table/column introspection query and of the foreign-key
    query; the INFORMATION_SCHEMA columns are strings or NULL ([None]). *)
Record schema_row : Type := {
  TABLE_SCHEMA : option pystr;
  TABLE_NAME : option pystr;
  COLUMN_NAME : option pystr;
  DATA_TYPE : option pystr;
  IS_NULLABLE : option pystr
}.

Record fk_row : Type := {
  FK_TABLE : option pystr;
  FK_COLUMN : option pystr;
  REFERENCED_TABLE : option pystr;
  REFERENCED_COLUMN : option pystr
}.

(** The Python value of a NULL-able string column, as stored in JSON. *)
Definition jcell (v : option pystr) : json :=
  match v with Some s => JStr s | None => JNull end.

(** [f"{v}"] *)
Definition fstr (v : option pystr) : pystr :=
  match v with Some s => s | None => lit "None" end.

Definition table_key (r : schema_row) : pystr :=
  fstr (TABLE_SCHEMA r) ++ lit "." ++ fstr (TABLE_NAME r).

Definition column_json (r : schema_row) : json :=
  JObj [(lit "name", jcell (COLUMN_NAME r));
        (lit "type", jcell (DATA_TYPE r));
        (lit "nullable", JBool (bool_decide (IS_NULLABLE r = Some (lit "YES"))))].

(** [schema_info["tables"][table_key]["columns"].append(...)], creating the
    entry [{"columns": [], "primary_keys": []}] first when the key is new.
    The table entries are kept as (key, columns) in insertion order. *)
Fixpoint add_column (key : pystr) (col : json) (tables : list (pystr * list json))
  : list (pystr * list json) :=
  match tables with
  | [] => [(key, [col])]
  | (k, cols) :: t => if bool_decide (k = key) then (k, cols ++ [col]) :: t
                      else (k, cols) :: add_column key col t
  end.

Definition build_tables (schema_data : list schema_row) : list (pystr * list json) :=
  fold_left (fun tables r => add_column (table_key r) (column_json r) tables)
            schema_data [].

Definition relationship_json (r : fk_row) : json :=
  JObj [(lit "from_table", jcell (FK_TABLE r));
        (lit "from_column", jcell (FK_COLUMN r));
        (lit "to_table", jcell (REFERENCED_TABLE r));
        (lit "to_column", jcell (REFERENCED_COLUMN r))].

Definition build_schema_info (schema_data : list schema_row) (fk_data : list fk_row) : json :=
  JObj [(lit "tables",
         JObj (map (fun kc => (kc.1, JObj [(lit "columns", JArr kc.2);
                                           (lit "primary_keys", JArr [])]))
                   (build_tables schema_data)));
        (lit "relationships", JArr (map relationship_json fk_data))].

(** The cache file [schema_cache.json]: [None] when it does not exist. *)
Abbreviation cache_file := (option pystr).

(** [introspection] is what the two introspection queries give inside
    [get_connection]: their rows, or the exception raised. *)
Definition get_schema_info (force_refresh : bool) (cache : cache_file)
    (introspection : result (list schema_row * list fk_row))
  : result json * cache_file :=
  match cache, force_refresh with
  | Some text, false =>
      (* json.load raises JSONDecodeError, a ValueError, on bad input *)
      (match load text with Some j => Ret j | None => Raise ValueError end, cache)
  | _, _ =>
      match introspection with
      | Raise e => (Raise e, cache)
      | Ret (schema_data, fk_data) =>
          let schema_info := build_schema_info schema_data fk_data in
          (Ret schema_info, Some (dump 0 schema_info))
      end
  end.

(** The cache invariant of [build_tables]: distinct table keys, and
    well-formed column entries. *)
Definition tables_ok (tables : list (pystr * list json)) : Prop :=
  NoDup (map fst tables) /\ Forall (fun kc => forallb wfb kc.2 = true) tables.

(* ================================================================== *)
(** * [is_greeting] *)

(** The [greetings] of [is_greeting]. *)
Definition greetings : list pystr :=
  map lit ["hi"; "hello"; "hey"; "good morning"; "good evening"; "good afternoon"]%string.

(** [any(re.search(rf"\b{greeting}\b", text, re.IGNORECASE) for greeting in greetings)] *)
Definition is_greeting (text : pystr) : bool :=
  existsb (fun greeting => search fl_icase (seqs [WordB; str greeting; WordB]) text) greetings.

(** No word character right before, and right after, a position. *)
Definition sep_before (a : pystr) : bool :=
  match last a with Some c => negb (is_word c) | None => true end.
Definition sep_after (b : pystr) : bool :=
  match b with c :: _ => negb (is_word c) | [] => true end.

(** A word that starts and ends with a word character. *)
Definition word_ends (g : pystr) : bool :=
  match g with
  | [] => false
  | c :: _ => is_word c && match last g with Some c' => is_word c' | None => false end
  end.

(* ================================================================== *)
(** * [send_long_message] *)

(** [range(start, stop, step)] for [step >= 1]; [stop - start] bounds the
    number of elements. *)
Fixpoint range_from (fuel i stop step : nat) : list nat :=
  match fuel with
  | O => []
  | S f => if Nat.ltb i stop then i :: range_from f (i + step) stop step else []
  end.

Definition py_range (start stop step : nat) : list nat :=
  range_from (stop - start) start stop step.

(** The texts [send_long_message] passes to [reply_text], in order. *)
Definition send_long_message (text : pystr) : list pystr :=
  map (fun i => take 4096 (drop i text)) (py_range 0 (length text) 4096).

(* ================================================================== *)
(** * [handle_message] *)

(** The replies [handle_message] sends; the emoji texts are represented by
    constructors, the text parts they carry are kept. *)
Inductive reply : Type :=
| ReplyTooManyRequests          (* "Too many requests. Please wait a minute." *)
| ReplyHello                    (* "Hello! How can I help with Northwind data today?" *)
| ReplyNoQuery                  (* "I couldn't generate a valid query. ..." *)
| ReplyQueryStructure           (* "There was an issue with the query structure. ..." *)
| ReplyError (error : pystr)    (* f"⚠️ {error}" *)
| ReplyNoData (user_message : pystr)  (* f"🔍 No data found for: {user_message}" *)
| ReplyText (chunk : pystr)     (* one [reply_text] of [send_long_message] *)
| ReplyUnexpected.              (* "An unexpected error occurred. ..." *)

Section Bot.
(** [llm prompt attempt]: what the prompting stage of [generate_sql] gives
    at that attempt for that prompt (see [sql_attempt]);
    [format_response user_query results]: the text of
    [OllamaLLM.format_response], or [None] when it raises.  Sending a reply
    is assumed to succeed.  The schema introspection that [generate_sql]
    may run through [get_schema_info] (when [schema_cache.json] does not
    exist) belongs to the [llm] abstraction: its database actions are not
    recorded here. *)
Context (drv : driver) (llm : pystr -> nat -> option pystr)
        (format_response : pystr -> list row -> option pystr).

(** The replies, the rate limiter's state afterwards, and the database
    actions of the [execute_query] call. *)
Definition handle_message (user_id : Z) (now : Q) (text : pystr) (st : user_requests)
  : list reply * user_requests * list event :=
  let user_message := py_strip text in
  let '(allowed, st) := check_rate_limit user_id now st in
  if negb allowed then ([ReplyTooManyRequests], st, []) else
  let '(replies, tr) :=
    if is_greeting user_message then ([ReplyHello], []) else
    match generate_sql (llm user_message) with
    | None | Some [] => ([ReplyNoQuery], [])                  (* if not query *)
    | Some query =>
        match execute_query drv query with
        | (Raise _, tr) => ([ReplyUnexpected], tr)             (* except Exception *)
        | (Ret (results, error), tr) =>
            match error with
            | Some ((_ :: _) as error) =>                      (* if error *)
                if contains (lit "invalid column name") (py_lower error)
                then ([ReplyQueryStructure], tr)
                else ([ReplyError error], tr)
            | _ =>
                match results with
                | [] => ([ReplyNoData user_message], tr)
                | _ =>
                    match format_response user_message results with
                    | None => ([ReplyUnexpected], tr)
                    | Some response => (map ReplyText (send_long_message response), tr)
                    end
                end
            end
        end
    end in
  (replies, st, tr).

End Bot.

(** Connection attempts among the database actions. *)
Definition is_connect (ev : event) : bool :=
  match ev with EvConnect _ => true | _ => false end.

(* ================================================================== *)
(** * Sample inputs *)

(** The window of a user: [self.user_requests.get(user_id, [])]. *)
Definition window (u : Z) (st : user_requests) : list Q := default [] (st !! u).

Definition nine_times : list Q := map inject_Z [1; 2; 3; 4; 5; 6; 7; 8; 9]%Z.

Definition early_rejected (query : pystr) : bool :=
  negb (starts_with (lit "select") (py_lower (py_strip query)))
  || negb (_is_query_safe query).

(** An environment where everything succeeds and a query returns one row. *)
Definition healthy_driver : driver := {|
  env_set := true;
  connect_fails := fun _ => None;
  execute_outcome := fun _ => XRows [lit "x"] [[CNum 1]];
  commit_fails := None
|}.

Definition fixed_errors : list pystr :=
  map lit ["Only SELECT queries are allowed";
           "Query contains potentially unsafe operations";
           "No results returned";
           "Unexpected database error"]%string.

Definition comment_then_newline : pystr :=
  lit "select * from Customers -- note" ++ ["010"%char] ++ lit "where Country = 'UK'".

Definition stacked_sp : pystr := lit "select CompanyName from Customers; sp_who".

(** One introspected column of the Northwind database. *)
Definition sample_row : schema_row :=
  {| TABLE_SCHEMA := Some (lit "dbo"); TABLE_NAME := Some (lit "Customers");
     COLUMN_NAME := Some (lit "CompanyName"); DATA_TYPE := Some (lit "nvarchar");
     IS_NULLABLE := Some (lit "NO") |}.

Definition sample_info : json := build_schema_info [sample_row] [].

(** A model that always answers with the same statement, and a formatter
    that always answers "ok". *)
Definition sql_model : pystr -> nat -> option pystr :=
  fun _ _ => Some (lit "SELECT * FROM Customers").

Definition ok_format : pystr -> list row -> option pystr := fun _ _ => Some (lit "ok").

Definition ten_times : list Q := map inject_Z [1; 2; 3; 4; 5; 6; 7; 8; 9; 10]%Z.

(* ################################################################## *)
(** * Properties *)

(* ================================================================== *)
(** ** Rate limiter *)

Section RateLimiter.

Lemma fresh_true (now t : Q) : fresh now t = true <-> (now - t < 60)%Q.
Proof.
  unfold fresh. rewrite negb_true_iff. split.
  - intros H. apply Qnot_le_lt. intros Hle. apply Qle_bool_iff in Hle. congruence.
  - intros H. destruct (Qle_bool 60 (now - t)) eqn:E; [|reflexivity].
    apply Qle_bool_iff in E. lra.
Qed.

Lemma check_rate_limit_eq (u : Z) (now : Q) (st : user_requests) :
  let w := List.filter (fresh now) (window u st) in
  check_rate_limit u now st =
    if Nat.leb MAX_REQUESTS_PER_MINUTE (length w) then (false, <[u := w]> st)
    else (true, <[u := w ++ [now]]> st).
Proof.
  unfold check_rate_limit, window. destruct (st !! u) eqn:E; cbv beta iota zeta.
  - rewrite E. destruct (Nat.leb _ _); rewrite ?insert_insert_eq; reflexivity.
  - rewrite lookup_insert_eq. cbv beta iota zeta.
    destruct (Nat.leb _ _); rewrite ?insert_insert_eq; reflexivity.
Qed.

Lemma window_check (u : Z) (now : Q) (st : user_requests) :
  let w := List.filter (fresh now) (window u st) in
  window u (check_rate_limit u now st).2 =
    if (check_rate_limit u now st).1 then w ++ [now] else w.
Proof.
  cbv zeta. rewrite check_rate_limit_eq.
  destruct (Nat.leb _ _); unfold window; simpl; rewrite lookup_insert_eq; reflexivity.
Qed.

Lemma checks_app (u : Z) (ts : list Q) (t : Q) (st : user_requests) :
  checks u (ts ++ [t]) st =
    ((checks u ts st).1 ++ [(check_rate_limit u t (checks u ts st).2).1],
     (check_rate_limit u t (checks u ts st).2).2).
Proof.
  revert st. induction ts as [|t0 ts IH]; intros st; simpl.
  - destruct (check_rate_limit u t st). reflexivity.
  - destruct (check_rate_limit u t0 st) as [b st1]. rewrite IH.
    destruct (checks u ts st1). reflexivity.
Qed.

(** Requests accepted at times of one 60-second window stay in the window. *)
Lemma checks_accepted_window (u : Z) (t1 : Q) (ts : list Q) (st : user_requests) :
  Forall (fun t => t1 <= t /\ t < t1 + 60)%Q ts ->
  Forall (fun b => b = true) (checks u ts st).1 ->
  exists pre, window u (checks u ts st).2 = pre ++ ts.
Proof.
  induction ts as [|t ts IH] using rev_ind; intros Hin Hacc.
  - exists (window u st). simpl. rewrite app_nil_r. reflexivity.
  - apply Forall_app in Hin as [Hin Ht]. inversion Ht as [|? ? [Ht1 Ht2] _]; subst.
    rewrite checks_app in Hacc |- *. simpl in Hacc.
    apply Forall_app in Hacc as [Hacc Hb]. inversion Hb as [|? ? Hb' _]; subst.
    destruct (IH Hin Hacc) as [pre Hpre].
    exists (List.filter (fresh t) pre). simpl.
    rewrite window_check, Hb', Hpre, List.filter_app. simpl.
    rewrite (List.forallb_filter_id _ ts); [rewrite app_assoc; reflexivity|].
    apply forallb_forall. intros x Hx. apply fresh_true.
    rewrite List.Forall_forall in Hin. destruct (Hin x Hx). lra.
Qed.

Lemma check_accepted_length (u : Z) (now : Q) (st : user_requests) :
  (check_rate_limit u now st).1 = true ->
  length (List.filter (fresh now) (window u st)) < MAX_REQUESTS_PER_MINUTE.
Proof.
  rewrite check_rate_limit_eq. cbv zeta.
  destruct (Nat.leb _ _) eqn:E; simpl; [discriminate|].
  intros _. apply Nat.leb_gt in E. exact E.
Qed.

(** The window holds exactly the ten accepted requests. *)
Lemma ten_accepted_window (st : user_requests) (u : Z) (t1 : Q) (rest : list Q) :
  length rest = 9 ->
  Forall (fun t => t1 <= t /\ t < t1 + 60)%Q rest ->
  (checks u (t1 :: rest) st).1 = repeat true 10 ->
  window u (checks u (t1 :: rest) st).2 = t1 :: rest.
Proof.
  intros Hlen Hin Hacc.
  destruct (exists_last (l := t1 :: rest) ltac:(discriminate)) as [init [t10 Heq]].
  assert (Hall : Forall (fun t => t1 <= t /\ t < t1 + 60)%Q (t1 :: rest)).
  { constructor; [split; [apply Qle_refl| lra]|exact Hin]. }
  rewrite Heq in Hall, Hacc |- *.
  assert (Hlinit : length init = 9).
  { apply (f_equal length) in Heq. rewrite length_app in Heq. simpl in Heq. lia. }
  apply Forall_app in Hall as [Hinit Hlast].
  inversion Hlast as [|? ? [H10a H10b] _]; subst.
  rewrite checks_app in Hacc |- *. simpl in Hacc.
  assert (Hacc' : Forall (fun b => b = true)
                   ((checks u init st).1 ++
                    [(check_rate_limit u t10 (checks u init st).2).1])).
  { rewrite Hacc. repeat constructor. }
  apply Forall_app in Hacc' as [Hinitacc Hb]. inversion Hb as [|? ? Hb' _]; subst.
  destruct (checks_accepted_window u t1 init st Hinit Hinitacc) as [pre Hpre].
  pose proof (check_accepted_length _ _ _ Hb') as Hlt.
  simpl. rewrite window_check, Hb', Hpre. rewrite Hpre in Hlt.
  rewrite List.filter_app in Hlt |- *.
  rewrite (List.forallb_filter_id _ init) in Hlt |- *.
  - rewrite length_app, Hlinit in Hlt. unfold MAX_REQUESTS_PER_MINUTE in Hlt.
    destruct (List.filter (fresh t10) pre); [reflexivity|simpl in Hlt; lia].
  - apply forallb_forall. intros x Hx. apply fresh_true.
    rewrite List.Forall_forall in Hinit. destruct (Hinit x Hx). lra.
  - apply forallb_forall. intros x Hx. apply fresh_true.
    rewrite List.Forall_forall in Hinit. destruct (Hinit x Hx). lra.
Qed.

End RateLimiter.

Lemma window_length_bound (u : Z) (st : user_requests) :
  map_Forall (fun _ w => length w <= MAX_REQUESTS_PER_MINUTE) st ->
  length (window u st) <= MAX_REQUESTS_PER_MINUTE.
Proof.
  intros H. unfold window. destruct (st !! u) as [w|] eqn:E; simpl.
  - exact (H u w E).
  - unfold MAX_REQUESTS_PER_MINUTE. lia.
Qed.

Lemma check_rate_limit_bounded (u : Z) (now : Q) (st : user_requests) :
  map_Forall (fun _ w => length w <= MAX_REQUESTS_PER_MINUTE) st ->
  map_Forall (fun _ w => length w <= MAX_REQUESTS_PER_MINUTE) (check_rate_limit u now st).2.
Proof.
  intros H. pose proof (window_length_bound u st H) as Hw.
  pose proof (List.filter_length_le (fresh now) (window u st)) as Hf.
  rewrite check_rate_limit_eq. cbv zeta.
  destruct (Nat.leb _ _) eqn:E; simpl; apply map_Forall_insert_2; try exact H.
  - lia.
  - apply Nat.leb_gt in E. rewrite length_app. simpl. lia.
Qed.

(** C4: under [check_rate_limit], once ten requests of a user at times
    [t1 <= t < t1 + 60] have all been accepted, a further request at a time
    [t11 < t1 + 60] is denied and leaves the state unchanged (nothing is
    recorded); a request at any time [t >= t1 + 60] is accepted again; and a
    user absent from the map starts from an empty window, so the request is
    accepted and the window becomes [[now]]. *)
Theorem rate_limit_sliding_window (st : user_requests) (u : Z) (t1 : Q)
    (rest : list Q) (t11 : Q) :
  length rest = 9 ->
  Forall (fun t => t1 <= t /\ t < t1 + 60)%Q rest ->
  (checks u (t1 :: rest) st).1 = repeat true 10 ->
  (t11 < t1 + 60)%Q ->
  let st' := (checks u (t1 :: rest) st).2 in
  check_rate_limit u t11 st' = (false, st') /\
  (forall t : Q, (t1 + 60 <= t)%Q -> (check_rate_limit u t st').1 = true) /\
  (forall (st0 : user_requests) (now : Q),
     st0 !! u = None -> check_rate_limit u now st0 = (true, <[u := [now]]> st0)).
Proof.
  intros Hlen Hin Hacc H11 st'.
  pose proof (ten_accepted_window st u t1 rest Hlen Hin Hacc) as Hw. fold st' in Hw.
  assert (Hlook : st' !! u = Some (t1 :: rest)).
  { unfold window in Hw. destruct (st' !! u); simpl in Hw; [congruence|discriminate]. }
  split; [|split].
  - rewrite check_rate_limit_eq, Hw. cbv zeta.
    rewrite (List.forallb_filter_id _ (t1 :: rest)).
    + simpl length. rewrite Hlen. simpl. rewrite insert_id by exact Hlook. reflexivity.
    + apply forallb_forall. intros x Hx. apply fresh_true.
      destruct Hx as [<-|Hx]; [lra|].
      rewrite List.Forall_forall in Hin. destruct (Hin x Hx). lra.
  - intros t Ht. rewrite check_rate_limit_eq, Hw. cbv zeta.
    assert (Hs : fresh t t1 = false).
    { destruct (fresh t t1) eqn:E; [|reflexivity]. apply fresh_true in E. lra. }
    simpl List.filter. rewrite Hs.
    pose proof (List.filter_length_le (fresh t) rest) as Hle.
    destruct (Nat.leb _ _) eqn:E; [|reflexivity].
    apply Nat.leb_le in E. unfold MAX_REQUESTS_PER_MINUTE in E. lia.
  - intros st0 now H0. rewrite check_rate_limit_eq. unfold window. rewrite H0.
    reflexivity.
Qed.

(** C10: from the initial empty map, after any sequence of requests of any
    users at any times, every user's window holds at most
    [MAX_REQUESTS_PER_MINUTE] timestamps. *)
Theorem rate_limit_window_bounded (reqs : list (Z * Q)) :
  map_Forall (fun _ w => length w <= MAX_REQUESTS_PER_MINUTE) (run_requests reqs ∅).
Proof.
  assert (Hgen : forall st, map_Forall (fun _ w => length w <= MAX_REQUESTS_PER_MINUTE) st ->
            map_Forall (fun _ w => length w <= MAX_REQUESTS_PER_MINUTE) (run_requests reqs st)).
  { induction reqs as [|[u now] reqs IH]; intros st H; simpl.
    - exact H.
    - apply IH. apply check_rate_limit_bounded. exact H. }
  apply Hgen. apply map_Forall_empty.
Qed.

Lemma rate_limit_sliding_window_witness :
  let st' := (checks 1%Z (0%Q :: nine_times) ∅).2 in
  check_rate_limit 1%Z 30%Q st' = (false, st') /\
  (forall t : Q, (0 + 60 <= t)%Q -> (check_rate_limit 1%Z t st').1 = true) /\
  (forall (st0 : user_requests) (now : Q),
     st0 !! 1%Z = None -> check_rate_limit 1%Z now st0 = (true, <[1%Z := [now]]> st0)).
Proof.
  apply (rate_limit_sliding_window ∅ 1%Z 0%Q nine_times 30%Q).
  - reflexivity.
  - repeat constructor; vm_compute; try reflexivity; discriminate.
  - vm_compute. reflexivity.
  - vm_compute. reflexivity.
Defined.

(* ================================================================== *)
(** ** Query executor *)

Section Executor.

(** Any property of the values the [with] body returns holds of the values
    [get_connection] lets through. *)
Lemma conn_loop_ret {A} (P : A -> Prop) (drv : driver) (body : M A) :
  (forall v tr, body = (Ret v, tr) -> P v) ->
  forall yielded k attempt v tr,
    conn_loop drv body yielded k attempt = (Ret v, tr) -> P v.
Proof.
  intros Hbody yielded k. revert yielded.
  induction k as [|k IH]; intros yielded attempt v tr H; simpl in H.
  - discriminate.
  - destruct (env_set drv); simpl in H; [|discriminate].
    destruct (connect_fails drv attempt) as [msg|].
    + eapply IH. exact H.
    + destruct yielded; simpl in H; [discriminate|].
      destruct body as [[a|e] tb] eqn:Eb.
      * destruct (commit_fails drv) as [msg|].
        -- destruct (conn_loop drv (Ret a, tb) true k (S attempt)) as [r tr'] eqn:E.
           inversion H; subst. eapply IH. exact E.
        -- inversion H; subst. eapply Hbody. reflexivity.
      * destruct (is_pyodbc e).
        -- destruct (conn_loop drv (Raise e, tb) true k (S attempt)) as [r tr'] eqn:E.
           inversion H; subst. eapply IH. exact E.
        -- discriminate.
Qed.

Lemma with_connection_ret {A} (P : A -> Prop) (drv : driver) (body : M A) v tr :
  (forall v tr, body = (Ret v, tr) -> P v) ->
  with_connection drv body = (Ret v, tr) -> P v.
Proof. intros Hb H. eapply conn_loop_ret; [exact Hb|exact H]. Qed.

(** Any property shared by the handler's value and by every value the
    checks and the connection let through holds of the result. *)
Lemma execute_query_ret (P : query_result -> Prop) (drv : driver) (query : pystr) :
  P ([], Some (lit "Only SELECT queries are allowed")) ->
  P ([], Some (lit "Query contains potentially unsafe operations")) ->
  P ([], Some (lit "Unexpected database error")) ->
  (forall v tr, cursor_body drv query = (Ret v, tr) -> P v) ->
  exists v tr, execute_query drv query = (Ret v, tr) /\ P v.
Proof.
  intros H1 H2 H3 Hb. unfold execute_query, execute_query_body.
  destruct (negb (starts_with _ _)); [do 2 eexists; split; [reflexivity|exact H1]|].
  destruct (negb (_is_query_safe query)); [do 2 eexists; split; [reflexivity|exact H2]|].
  destruct (with_connection drv (cursor_body drv query)) as [[v|e] tr] eqn:E; simpl.
  - do 2 eexists. split; [reflexivity|]. eapply with_connection_ret; [exact Hb|exact E].
  - do 2 eexists. split; [reflexivity|exact H3].
Qed.

Lemma first_field_notin (sep : ascii) (s : pystr) : ~ In sep (first_field sep s).
Proof.
  unfold first_field. induction s as [|c s IH]; simpl; [tauto|].
  destruct (ch_eqb c sep) eqn:E; simpl; [tauto|].
  destruct (split_on sep s) as [|w ws]; simpl in *.
  - intros [H|H]; [subst; unfold ch_eqb in E; rewrite Nat.eqb_refl in E; discriminate|exact H].
  - intros [H|H]; [subst; unfold ch_eqb in E; rewrite Nat.eqb_refl in E; discriminate|].
    exact (IH H).
Qed.

End Executor.

(** C6: [execute_query] returns normally on every input and every
    behaviour of the database: the outcome is a value, never a raised
    exception, and when its error part is set its row list is empty. *)
Theorem execute_query_total_shape (drv : driver) (query : pystr) :
  match execute_query drv query with
  | (Ret (rows, Some _), _) => rows = []
  | (Ret (_, None), _) => True
  | (Raise _, _) => False
  end.
Proof.
  destruct (execute_query_ret
              (fun v => match v.2 with Some _ => v.1 = [] | None => True end)
              drv query eq_refl eq_refl eq_refl) as [[rows err] [tr [E HP]]].
  - intros v tr. unfold cursor_body. simpl.
    destruct (execute_outcome drv query); simpl; intros H; inversion H; subst; simpl;
      reflexivity || exact I.
  - rewrite E. destruct err; exact HP.
Qed.

(** C3 (amended): for every input whose whitespace-stripped, lower-cased
    text does not start with "select", or that fails [_is_query_safe],
    [execute_query] returns an empty row list with an error message and
    performs no database action at all (empty trace: no connection, no
    statement). *)
Theorem execute_query_rejects_early (drv : driver) (query : pystr) :
  early_rejected query = true ->
  exists msg, execute_query drv query = (Ret ([], Some msg), []).
Proof.
  unfold early_rejected, execute_query, execute_query_body. intros H.
  destruct (negb (starts_with _ _)); [eexists; reflexivity|].
  simpl in H. rewrite H. eexists; reflexivity.
Qed.

Lemma execute_query_rejects_early_witness :
  early_rejected (lit "DELETE FROM Customers") = true /\
  exists msg, execute_query healthy_driver (lit "DELETE FROM Customers")
              = (Ret ([], Some msg), []).
Proof.
  split; [vm_compute; reflexivity|].
  apply execute_query_rejects_early. vm_compute. reflexivity.
Defined.

(** C3 as stated fails: " select 1" does not start with "select", yet the
    query is run (connection, execution, commit) because the check strips
    the text first. *)
Lemma execute_query_leading_space_runs :
  starts_with (lit "select") (py_lower (lit " select 1")) = false /\
  execute_query healthy_driver (lit " select 1")
  = (Ret ([[(lit "x", CNum 1)]], None),
     [EvConnect 0; EvExecute (lit " select 1"); EvCommit; EvClose]).
Proof. split; vm_compute; reflexivity. Qed.

(** C9: when the driver fails executing the statement with error text
    [msg], any error message [execute_query] returns is either
    "SQL error: " followed by the first line of [msg] or one of the fixed
    messages that carry no driver text; in every case it contains no
    newline. *)
Theorem execute_query_error_first_line (drv : driver) (query msg : pystr) :
  execute_outcome drv query = XError msg ->
  match execute_query drv query with
  | (Ret (_, Some m), _) =>
      (m = lit "SQL error: " ++ first_field "010"%char msg \/ In m fixed_errors)
      /\ ~ In "010"%char m
  | _ => True
  end.
Proof.
  intros Hx.
  destruct (execute_query_ret
              (fun v => match v.2 with
                        | Some m => (m = lit "SQL error: " ++ first_field "010"%char msg
                                     \/ In m fixed_errors) /\ ~ In "010"%char m
                        | None => True end)
              drv query) as [[rows err] [tr [E HP]]].
  - split; [right; left; reflexivity|simpl; intuition discriminate].
  - split; [right; right; left; reflexivity|simpl; intuition discriminate].
  - split; [right; right; right; right; left; reflexivity|simpl; intuition discriminate].
  - intros v tr. unfold cursor_body. rewrite Hx. simpl. intros H.
    inversion H; subst. simpl. split; [left; reflexivity|].
    intros Hin. repeat (destruct Hin as [Hin|Hin]; [discriminate|]).
    exact (first_field_notin _ _ Hin).
  - rewrite E. exact HP.
Qed.

Lemma execute_query_error_first_line_witness :
  let drv := {| env_set := true; connect_fails := fun _ => None;
                execute_outcome := fun _ => XError (lit "[42S02] Invalid object name 'X'.
(208) (SQLExecDirectW)");
                commit_fails := None |} in
  execute_outcome drv (lit "select * from X") = XError (lit "[42S02] Invalid object name 'X'.
(208) (SQLExecDirectW)") /\
  execute_query drv (lit "select * from X")
  = (Ret ([], Some (lit "SQL error: [42S02] Invalid object name 'X'.")),
     [EvConnect 0; EvExecute (lit "select * from X"); EvCommit; EvClose]) /\
  match execute_query drv (lit "select * from X") with
  | (Ret (_, Some m), _) =>
      (m = lit "SQL error: " ++ first_field "010"%char (lit "[42S02] Invalid object name 'X'.
(208) (SQLExecDirectW)") \/ In m fixed_errors)
      /\ ~ In "010"%char m
  | _ => True
  end.
Proof.
  intros drv. split; [reflexivity|]. split; [vm_compute; reflexivity|].
  apply execute_query_error_first_line. reflexivity.
Defined.

(* ================================================================== *)
(** ** Safety gate, cleaning and synthesis at concrete inputs *)

(** C1 (code bug): [_is_query_safe] accepts a line comment that is followed
    by another line ([--.*$] is searched without [re.MULTILINE], whereas
    [_clean_sql] searches the same pattern with it), and a ';' followed by a
    stored-procedure name starting with "sp_" (the [\b] after "sp_" needs a
    non-word character right after the underscore). *)
Theorem is_query_safe_misses_comment_and_sp :
  contains (lit "--") comment_then_newline = true /\
  _is_query_safe comment_then_newline = true /\
  search fl_multiline (seqs [Chr "-"; Chr "-"; dotstar; EndL])
         (py_lower comment_then_newline) = true /\
  contains (lit "; sp_") stacked_sp = true /\
  _is_query_safe stacked_sp = true.
Proof. vm_compute. repeat split. Qed.

(** C2 (code bug): a model output "select*from Customers" passes every
    check of [generate_sql] and is returned without any TOP clause: the
    injection pattern [select\s+] needs white space after "select".  And
    "SELECT TOP 500 ..." is returned uncapped, because the test
    [f"top {MAX_RESULTS}" in sql.lower()] also holds for "top 500". *)
Theorem generate_sql_uncapped :
  generate_sql (fun _ => Some (lit "select*from Customers"))
    = Some (lit "select*from Customers") /\
  contains (lit "top") (lit "select*from customers") = false /\
  generate_sql (fun _ => Some (lit "SELECT TOP 500 * FROM Customers"))
    = Some (lit "SELECT TOP 500 * FROM Customers").
Proof. vm_compute. repeat split. Qed.

(** C8 (code bug): [_clean_sql] removes comments before it removes
    slashes, so deleting the slash of "-/-" creates a new "--" line comment
    in the cleaned text. *)
Theorem clean_sql_creates_line_comment :
  _clean_sql (lit "select a -/- b from t") = lit "select top 50 a -- b from t" /\
  contains (lit "--") (_clean_sql (lit "select a -/- b from t")) = true.
Proof. vm_compute. repeat split. Qed.

(* ================================================================== *)
(** ** Sanitizer *)

Section Sanitizer.

Lemma sub_no_match (fl : flags) (r : re) (repl s : pystr) :
  search fl r s = false -> sub fl r repl s = s.
Proof.
  unfold search, sub. simpl. destruct (search_at fl s r 0); [discriminate|].
  intros _. reflexivity.
Qed.

Lemma sub_match (fl : flags) (r : re) (repl s : pystr) :
  search fl r s = true -> exists a b, sub fl r repl s = a ++ repl ++ b.
Proof.
  unfold search, sub. simpl. destruct (search_at fl s r 0) as [[st en]|]; [|discriminate].
  intros _. do 2 eexists. reflexivity.
Qed.

Lemma ch_eqb_refl (c : ascii) : ch_eqb c c = true.
Proof. apply Nat.eqb_refl. Qed.

Lemma starts_with_app (p b : pystr) : starts_with p (p ++ b) = true.
Proof. induction p as [|c p IH]; simpl; [reflexivity|]. rewrite ch_eqb_refl, IH. reflexivity. Qed.

Lemma contains_app_r (p a b : pystr) : contains p b = true -> contains p (a ++ b) = true.
Proof.
  induction a as [|c a IH]; simpl; [tauto|].
  intros H. rewrite (IH H). apply orb_true_r.
Qed.

Lemma contains_app_prefix (p b : pystr) : contains p (p ++ b) = true.
Proof.
  destruct p as [|c p]; [destruct b; reflexivity|]. simpl.
  rewrite ch_eqb_refl, starts_with_app. reflexivity.
Qed.

(** Once "[PHONE]" is in the text the sensitive-word test fires. *)
Lemma sensitive_phone_token (a b : pystr) :
  existsb (fun w => contains w (py_lower (a ++ lit "[PHONE]" ++ b))) sensitive_words = true.
Proof.
  apply existsb_exists. exists (lit "phone"). split; [simpl; tauto|].
  unfold py_lower. rewrite !map_app. apply contains_app_r.
  change (contains (lit "phone") ("["%char :: lit "phone" ++ map lower_char ("]"%char :: b)) = true).
  apply (contains_app_r (lit "phone") ["["%char] (lit "phone" ++ _)).
  apply contains_app_prefix.
Qed.

End Sanitizer.

(** X25: [_sanitize_data] replaces the matches of the email
    pattern by "[EMAIL]", then the word-bounded runs of at least ten digits
    by "[PHONE]", and answers "[REDACTED]" when the result contains one of
    the sensitive words.  Hence a value in which a word-bounded run of ten
    or more digits remains after the email step is rendered as
    "[REDACTED]"; any other rendering is the email-replaced text, and no
    such digit run is left in it. *)
Theorem sanitize_data_redaction (value : pystr) :
  let e := sub noflags email_re (lit "[EMAIL]") value in
  (existsb (fun w => contains w (py_lower (sub noflags digits_re (lit "[PHONE]") e)))
           sensitive_words = true -> _sanitize_data value = REDACTED) /\
  (search noflags digits_re e = true -> _sanitize_data value = REDACTED) /\
  (_sanitize_data value = REDACTED \/
   (_sanitize_data value = e /\ search noflags digits_re e = false)).
Proof.
  intros e. unfold _sanitize_data. fold e.
  split; [intros H; rewrite H; reflexivity|].
  assert (Hd : search noflags digits_re e = true ->
               existsb (fun w => contains w (py_lower (sub noflags digits_re (lit "[PHONE]") e)))
                       sensitive_words = true).
  { intros H. destruct (sub_match noflags digits_re (lit "[PHONE]") e H) as [a [b ->]].
    apply sensitive_phone_token. }
  split; [intros H; rewrite (Hd H); reflexivity|].
  destruct (search noflags digits_re e) eqn:Es.
  - left. rewrite (Hd eq_refl). reflexivity.
  - clear Hd. rewrite (sub_no_match _ _ _ _ Es).
    destruct (existsb _ _); [left; reflexivity|right; split; reflexivity].
Qed.

(** C5 fails: [_format_all_records] passes only the value of a field to
    [_sanitize_data], whose sensitive-word test looks at the value, so a
    field named "Phone" is rendered with its value in clear; and a ten-digit
    run glued to letters is not replaced. *)
Lemma sanitize_field_name_ignored :
  existsb (fun w => contains w (py_lower (lit "Phone"))) sensitive_words = true /\
  format_field (lit "Phone", CStr (lit "030-0074321"))
    = Some (bullet ++ lit "Phone: 030-0074321") /\
  _sanitize_data (lit "ab1234567890") = lit "ab1234567890".
Proof. vm_compute. repeat split. Qed.

(* ================================================================== *)
(** ** Schema cache: [json.load] reads back what [json.dump] wrote *)

Section SchemaCache.

Lemma parse_string_encode_char (c : ascii) (t : pystr) :
  parse_string (encode_char c ++ t) = ocons c (parse_string t).
Proof. destruct c as [[] [] [] [] [] [] [] []]; reflexivity. Qed.

Lemma parse_string_encode (s t : pystr) :
  parse_string (flat_map encode_char s ++ dq :: t) = Some (s, t).
Proof.
  induction s as [|c s IH]; [reflexivity|].
  simpl. rewrite <- app_assoc, parse_string_encode_char, IH. reflexivity.
Qed.

Lemma skip_ws_indent (k : nat) (s : pystr) : skip_ws (indent k ++ s) = skip_ws s.
Proof. unfold indent. induction (2 * k) as [|m IH]; [reflexivity|]. exact IH. Qed.

Lemma dump_head (lvl : nat) (j : json) :
  exists c r, dump lvl j = c :: r /\ is_json_ws c = false /\
              ch_eqb c "]"%char = false /\ ch_eqb c "}"%char = false.
Proof.
  destruct j as [|[]| |[]|[]]; simpl; do 2 eexists; (split; [reflexivity|]); auto.
Qed.

Lemma skip_ws_dump (lvl : nat) (j : json) (r : pystr) :
  skip_ws (dump lvl j ++ r) = dump lvl j ++ r.
Proof.
  destruct (dump_head lvl j) as (c & t & -> & Hws & _). simpl. rewrite Hws. reflexivity.
Qed.

Lemma dict_set_fresh {V} (k : pystr) (v : V) (d : list (pystr * V)) :
  k ∉ map fst d -> dict_set k v d = d ++ [(k, v)].
Proof.
  induction d as [|[k' v'] d IH]; [reflexivity|]. simpl. intros Hk.
  rewrite bool_decide_false by (intros ->; apply Hk; left).
  rewrite IH; [reflexivity|]. intros Hin. apply Hk. right. exact Hin.
Qed.

Lemma dict_of_pairs_nodup {V} (l : list (pystr * V)) :
  NoDup (map fst l) -> dict_of_pairs l = l.
Proof.
  unfold dict_of_pairs. change l with ([] ++ l) at 1 3. generalize (@nil (pystr * V)) as d.
  induction l as [|[k v] l IH]; intros d Hnd; simpl; [rewrite app_nil_r; reflexivity|].
  rewrite dict_set_fresh.
  - rewrite IH; [rewrite <- app_assoc; reflexivity|]. rewrite <- app_assoc. exact Hnd.
  - rewrite map_app in Hnd. apply NoDup_app in Hnd as (_ & Hd & _).
    intros Hin. apply (Hd k Hin). left.
Qed.

Lemma join_map_head {A} (sep : pystr) (f : A -> pystr) (x : A) (l : list A) :
  exists t, join sep (map f (x :: l)) = f x ++ t.
Proof. destruct l; [exists []; rewrite app_nil_r|eexists]; reflexivity. Qed.

Lemma skip_ws_join {A} (sep : pystr) (f : A -> pystr) (y : A) (l : list A) (T : pystr) :
  (forall a T', skip_ws (f a ++ T') = f a ++ T') ->
  skip_ws (join sep (map f (y :: l)) ++ T) = join sep (map f (y :: l)) ++ T.
Proof.
  intros Hf. destruct (join_map_head sep f y l) as [t ->].
  rewrite <- app_assoc. apply Hf.
Qed.

Lemma parse_items_dump (lvl : nat) (l : list json) :
  Forall (fun x => forall n rest, jsize x <= n ->
            parse_value n (dump (S lvl) x ++ rest) = Some (x, rest)) l ->
  l <> [] ->
  forall n acc rest, list_sum (map (fun x => S (jsize x)) l) <= n ->
  parse_items n (join (sep_at (S lvl)) (map (dump (S lvl)) l)
                 ++ nl :: indent lvl ++ "]"%char :: rest) acc
  = Some (JArr (rev acc ++ l), rest).
Proof.
  induction l as [|x l IH]; intros HF Hne n acc rest Hn; [congruence|].
  apply List.Forall_cons_iff in HF as [Hx HF].
  destruct n as [|n]; [simpl in Hn; lia|]. simpl in Hn.
  destruct l as [|y l].
  - cbn [parse_items map join]. rewrite Hx by lia.
    cbn [skip_ws]. rewrite skip_ws_indent. cbn [skip_ws].
    change (is_json_ws "]"%char) with false. cbv iota.
    change (ch_eqb "]" ",") with false. change (ch_eqb "]" "]") with true. cbv iota.
    reflexivity.
  - change (join (sep_at (S lvl)) (map (dump (S lvl)) (x :: y :: l)))
      with (dump (S lvl) x ++ sep_at (S lvl) ++ join (sep_at (S lvl)) (map (dump (S lvl)) (y :: l))).
    cbn [parse_items]. rewrite <- app_assoc, Hx by lia.
    rewrite <- app_assoc. unfold sep_at at 1. change (lit ",") with [","%char].
    cbn [app skip_ws]. change (is_json_ws ","%char) with false. cbv iota.
    change (ch_eqb "," ",") with true. cbv iota.
    cbn [skip_ws]. change (is_json_ws nl) with true. cbv iota.
    rewrite skip_ws_indent, skip_ws_join by (intros; apply skip_ws_dump).
    rewrite (IH HF ltac:(discriminate)) by lia.
    simpl. rewrite <- app_assoc. reflexivity.
Qed.

Lemma parse_members_head (n lvl : nat) (k : pystr) (v : json) (T : pystr)
    (acc : list (pystr * json)) :
  parse_value n (dump lvl v ++ T) = Some (v, T) ->
  parse_members (S n) (encode_string k ++ lit ": " ++ dump lvl v ++ T) acc =
  match skip_ws T with
  | c2 :: r4 =>
      if ch_eqb c2 ","%char then parse_members n (skip_ws r4) ((k, v) :: acc)
      else if ch_eqb c2 "}"%char then Some (JObj (dict_of_pairs (rev ((k, v) :: acc))), r4)
      else None
  | [] => None
  end.
Proof.
  intros Hv. unfold encode_string. cbn [app parse_members].
  change (ch_eqb dq dq) with true. cbv iota.
  rewrite <- app_assoc. cbn [app]. rewrite parse_string_encode. cbv iota.
  change (lit ": ") with [":"%char; " "%char]. cbn [app skip_ws].
  change (is_json_ws ":"%char) with false. cbv iota.
  change (ch_eqb ":" ":") with true. cbv iota.
  cbn [skip_ws]. change (is_json_ws " "%char) with true. cbv iota.
  rewrite skip_ws_dump, Hv. reflexivity.
Qed.

Lemma parse_members_dump (lvl : nat) (l : list (pystr * json)) :
  Forall (fun kv => forall n rest, jsize kv.2 <= n ->
            parse_value n (dump (S lvl) kv.2 ++ rest) = Some (kv.2, rest)) l ->
  l <> [] ->
  forall n acc rest, list_sum (map (fun kv => S (jsize kv.2)) l) <= n ->
  parse_members n
    (join (sep_at (S lvl))
          (map (fun kv => encode_string kv.1 ++ lit ": " ++ dump (S lvl) kv.2) l)
     ++ nl :: indent lvl ++ "}"%char :: rest) acc
  = Some (JObj (dict_of_pairs (rev acc ++ l)), rest).
Proof.
  induction l as [|[k v] l IH]; intros HF Hne n acc rest Hn; [congruence|].
  apply List.Forall_cons_iff in HF as [Hx HF]. simpl in Hx.
  destruct n as [|n]; [simpl in Hn; lia|]. simpl in Hn.
  destruct l as [|y l].
  - cbn [map join]. rewrite <- !app_assoc, parse_members_head by (apply Hx; lia).
    cbn [skip_ws]. change (is_json_ws nl) with true. cbv iota. rewrite skip_ws_indent. cbn [skip_ws].
    change (is_json_ws "}"%char) with false. cbv iota.
    change (ch_eqb "}" ",") with false. change (ch_eqb "}" "}") with true. cbv iota.
    reflexivity.
  - set (f := fun kv : pystr * json => encode_string kv.1 ++ lit ": " ++ dump (S lvl) kv.2).
    change (join (sep_at (S lvl)) (map f ((k, v) :: y :: l)))
      with (f (k, v) ++ sep_at (S lvl) ++ join (sep_at (S lvl)) (map f (y :: l))).
    unfold f at 1. cbn [fst snd].
    rewrite <- !app_assoc, parse_members_head by (apply Hx; lia).
    unfold sep_at at 1. change (lit ",") with [","%char].
    cbn [app skip_ws]. change (is_json_ws ","%char) with false. cbv iota.
    change (ch_eqb "," ",") with true. cbv iota.
    cbn [skip_ws]. change (is_json_ws nl) with true. cbv iota.
    rewrite skip_ws_indent.
    rewrite skip_ws_join by (intros a T'; unfold f; rewrite <- app_assoc; reflexivity).
    rewrite (IH HF ltac:(discriminate)) by lia.
    simpl. rewrite <- app_assoc. reflexivity.
Qed.

Lemma forallb_Forall_impl {A} (P : A -> Prop) (b : A -> bool) (l : list A) :
  Forall (fun x => b x = true -> P x) l -> forallb b l = true -> Forall P l.
Proof.
  intros HF Hb. apply List.Forall_forall. intros x Hx.
  apply (proj1 (List.Forall_forall _ _) HF x Hx). exact (proj1 (forallb_forall _ _) Hb x Hx).
Qed.

Lemma parse_dump (j : json) :
  wfb j = true -> forall lvl n rest, jsize j <= n ->
  parse_value n (dump lvl j ++ rest) = Some (j, rest).
Proof.
  induction j as [| b | s | l IHl | l IHl] using json_ind_nested;
    intros Hwf lvl n rest Hn; (destruct n as [|n]; [simpl in Hn; lia|]).
  - reflexivity.
  - destruct b; reflexivity.
  - cbn [dump]. unfold encode_string. cbn [app parse_value].
    change (ch_eqb dq dq) with true. cbv iota.
    rewrite <- app_assoc. cbn [app]. rewrite parse_string_encode. reflexivity.
  - destruct l as [|x l]; [reflexivity|].
    change (dump lvl (JArr (x :: l))) with
      ("["%char :: nl :: indent (S lvl) ++ join (sep_at (S lvl)) (map (dump (S lvl)) (x :: l))
         ++ nl :: indent lvl ++ ["]"%char]).
    cbn [app parse_value]. change (ch_eqb "[" dq) with false.
    change (ch_eqb "[" "{") with false. change (ch_eqb "[" "[") with true. cbv iota.
    cbn [skip_ws]. change (is_json_ws nl) with true. cbv iota.
    rewrite <- !app_assoc. cbn [app]. rewrite skip_ws_indent.
    rewrite skip_ws_join by (intros; apply skip_ws_dump).
    rewrite <- app_assoc. cbn [app].
    assert (Hcr : exists c r, join (sep_at (S lvl)) (map (dump (S lvl)) (x :: l))
                                ++ nl :: indent lvl ++ "]"%char :: rest = c :: r
                              /\ ch_eqb c "]"%char = false).
    { destruct (join_map_head (sep_at (S lvl)) (dump (S lvl)) x l) as [t ->].
      destruct (dump_head (S lvl) x) as (c & r & -> & _ & Hc & _).
      do 2 eexists. split; [reflexivity|exact Hc]. }
    destruct Hcr as (c & r & Hcr & Hc). rewrite Hcr. cbv iota. rewrite Hc. cbv iota.
    rewrite <- Hcr. simpl in Hn.
    rewrite (parse_items_dump lvl (x :: l)); [reflexivity| |discriminate|simpl; lia].
    apply (forallb_Forall_impl _ wfb); [|exact Hwf].
    eapply List.Forall_impl; [|exact IHl]. intros y Hy Hw n' rest' Hn'. apply Hy; assumption.
  - destruct l as [|[k v] l]; [reflexivity|].
    cbn [wfb] in Hwf. apply andb_prop in Hwf as [Hnd Hwf].
    apply bool_decide_eq_true_1 in Hnd.
    set (f := fun kv : pystr * json => encode_string kv.1 ++ lit ": " ++ dump (S lvl) kv.2).
    change (dump lvl (JObj ((k, v) :: l))) with
      ("{"%char :: nl :: indent (S lvl) ++ join (sep_at (S lvl)) (map f ((k, v) :: l))
         ++ nl :: indent lvl ++ ["}"%char]).
    cbn [app parse_value]. change (ch_eqb "{" dq) with false.
    change (ch_eqb "{" "{") with true. cbv iota.
    cbn [skip_ws]. change (is_json_ws nl) with true. cbv iota.
    rewrite <- !app_assoc. cbn [app]. rewrite skip_ws_indent.
    rewrite skip_ws_join by (intros a T'; unfold f; rewrite <- app_assoc; reflexivity).
    rewrite <- app_assoc. cbn [app].
    lazymatch goal with
    | |- context [match ?s with [] => _ | _ :: _ => _ end] =>
        assert (Hcr : exists r, s = dq :: r) by (destruct l; eexists; reflexivity)
    end.
    destruct Hcr as (r & Hcr). rewrite Hcr. cbv iota.
    change (ch_eqb dq "}") with false. cbv iota.
    rewrite <- Hcr. simpl in Hn. unfold f.
    rewrite (parse_members_dump lvl ((k, v) :: l)); [| |discriminate|simpl; lia].
    + simpl. rewrite dict_of_pairs_nodup by exact Hnd. reflexivity.
    + apply (forallb_Forall_impl _ (fun kv => wfb kv.2)); [|exact Hwf].
      eapply List.Forall_impl; [|exact IHl]. intros y Hy Hw n' rest' Hn'. apply Hy; assumption.
Qed.

Lemma sum_le_join {A} (sep : pystr) (f : A -> pystr) (g : A -> nat) (l : list A) :
  sep <> [] -> Forall (fun a => g a <= length (f a)) l ->
  list_sum (map (fun a => S (g a)) l) <= length (join sep (map f l)) + 1.
Proof.
  intros Hsep. induction l as [|x l IH]; intros HF; [simpl; lia|].
  apply List.Forall_cons_iff in HF as [Hx HF]. specialize (IH HF).
  destruct sep as [|s0 sep]; [congruence|].
  destruct l as [|y l]; [simpl; lia|].
  change (join (s0 :: sep) (map f (x :: y :: l)))
    with (f x ++ (s0 :: sep) ++ join (s0 :: sep) (map f (y :: l))).
  change (list_sum (map (fun a => S (g a)) (x :: y :: l)))
    with (S (g x) + list_sum (map (fun a => S (g a)) (y :: l))).
  rewrite !length_app. cbn [length]. lia.
Qed.

Lemma jsize_le_dump (lvl : nat) (j : json) : jsize j <= length (dump lvl j).
Proof.
  revert lvl.
  induction j as [| b | s | l IHl | l IHl] using json_ind_nested; intros lvl.
  - simpl; lia.
  - destruct b; simpl; lia.
  - simpl. lia.
  - destruct l as [|x l]; [simpl; lia|].
    change (dump lvl (JArr (x :: l))) with
      ("["%char :: nl :: indent (S lvl) ++ join (sep_at (S lvl)) (map (dump (S lvl)) (x :: l))
         ++ nl :: indent lvl ++ ["]"%char]).
    pose proof (sum_le_join (sep_at (S lvl)) (dump (S lvl)) jsize (x :: l)
                  ltac:(discriminate)
                  ltac:(eapply List.Forall_impl; [|exact IHl]; intros y Hy; apply Hy)).
    cbn [jsize length]. rewrite !length_app. cbn [length]. lia.
  - destruct l as [|kv l]; [simpl; lia|].
    set (f := fun kv : pystr * json => encode_string kv.1 ++ lit ": " ++ dump (S lvl) kv.2).
    change (dump lvl (JObj (kv :: l))) with
      ("{"%char :: nl :: indent (S lvl) ++ join (sep_at (S lvl)) (map f (kv :: l))
         ++ nl :: indent lvl ++ ["}"%char]).
    pose proof (sum_le_join (sep_at (S lvl)) f (fun kv => jsize kv.2) (kv :: l)
                  ltac:(discriminate)
                  ltac:(eapply List.Forall_impl; [|exact IHl]; intros y Hy;
                        unfold f; rewrite !length_app; specialize (Hy (S lvl)); lia)) as Hs.
    cbv beta in Hs.
    cbn [jsize length]. rewrite !length_app. cbn [length].
    unfold pystr in *. lia.
Qed.

Lemma load_dump (j : json) : wfb j = true -> load (dump 0 j) = Some j.
Proof.
  intros Hwf. unfold load.
  assert (Hs : skip_ws (dump 0 j) = dump 0 j).
  { pose proof (skip_ws_dump 0 j []) as E. rewrite app_nil_r in E. exact E. }
  rewrite Hs.
  pose proof (parse_dump j Hwf 0 (S (length (dump 0 j))) []
                ltac:(pose proof (jsize_le_dump 0 j); lia)) as E.
  rewrite app_nil_r in E. rewrite E. reflexivity.
Qed.

Lemma wfb_column_json (r : schema_row) : wfb (column_json r) = true.
Proof. unfold column_json. destruct (COLUMN_NAME r), (DATA_TYPE r); reflexivity. Qed.

Lemma wfb_relationship_json (r : fk_row) : wfb (relationship_json r) = true.
Proof.
  unfold relationship_json.
  destruct (FK_TABLE r), (FK_COLUMN r), (REFERENCED_TABLE r), (REFERENCED_COLUMN r);
    reflexivity.
Qed.

Lemma add_column_keys (key : pystr) (col : json) (t : list (pystr * list json)) (x : pystr) :
  x ∈ map fst (add_column key col t) -> x = key \/ x ∈ map fst t.
Proof.
  induction t as [|[k cols] t IH]; simpl.
  - intros Hx. left. apply list_elem_of_singleton in Hx. exact Hx.
  - case_bool_decide; simpl; intros Hx.
    + right. exact Hx.
    + apply elem_of_cons in Hx as [->|Hx]; [right; left|].
      destruct (IH Hx) as [->|Hx']; [left; reflexivity|right; right; exact Hx'].
Qed.

Lemma add_column_ok (key : pystr) (col : json) (t : list (pystr * list json)) :
  wfb col = true -> tables_ok t -> tables_ok (add_column key col t).
Proof.
  intros Hc. unfold tables_ok. induction t as [|[k cols] t IH]; intros [Hnd HF]; simpl.
  - split; [apply NoDup_singleton|]. constructor; [simpl; rewrite Hc; reflexivity|constructor].
  - apply List.Forall_cons_iff in HF as [Hk HF]. apply NoDup_cons in Hnd as [Hkn Hnd].
    case_bool_decide as E.
    + split; [apply NoDup_cons; split; assumption|].
      constructor; [|exact HF]. simpl in *. rewrite forallb_app, Hk. simpl. rewrite Hc. reflexivity.
    + destruct (IH (conj Hnd HF)) as [Hnd' HF']. split; [|constructor; assumption].
      apply NoDup_cons. split; [|exact Hnd'].
      intros Hin. destruct (add_column_keys key col t k Hin) as [->|Hin']; [apply E; reflexivity|].
      exact (Hkn Hin').
Qed.

Lemma build_tables_ok (schema_data : list schema_row) : tables_ok (build_tables schema_data).
Proof.
  unfold build_tables.
  assert (H0 : tables_ok []) by (split; constructor).
  revert H0. generalize (@nil (pystr * list json)).
  induction schema_data as [|r rs IH]; intros t Ht; simpl; [exact Ht|].
  apply IH. apply add_column_ok; [apply wfb_column_json|exact Ht].
Qed.

Lemma wfb_build_schema_info (schema_data : list schema_row) (fk_data : list fk_row) :
  wfb (build_schema_info schema_data fk_data) = true.
Proof.
  destruct (build_tables_ok schema_data) as [Hnd HF].
  unfold build_schema_info. cbn [wfb forallb snd].
  repeat (apply andb_true_intro; split).
  - apply bool_decide_eq_true_2. cbn [map fst].
    apply NoDup_cons. split; [|apply NoDup_singleton].
    intros Hin. apply list_elem_of_singleton in Hin. discriminate.
  - apply bool_decide_eq_true_2. rewrite map_map. exact Hnd.
  - apply forallb_forall. intros kv Hin. apply in_map_iff in Hin as (kc & <- & Hkc).
    cbn [wfb forallb snd]. rewrite (proj1 (List.Forall_forall _ _) HF kc Hkc).
    rewrite bool_decide_true; [reflexivity|].
    cbn [map fst]. apply NoDup_cons. split; [|apply NoDup_singleton].
    intros Hin. apply list_elem_of_singleton in Hin. discriminate.
  - apply forallb_forall. intros j Hin. apply in_map_iff in Hin as (r & <- & _).
    apply wfb_relationship_json.
  - reflexivity.
Qed.

Lemma load_build_schema_info (schema_data : list schema_row) (fk_data : list fk_row) :
  load (dump 0 (build_schema_info schema_data fk_data))
  = Some (build_schema_info schema_data fk_data).
Proof. apply load_dump, wfb_build_schema_info. Qed.

End SchemaCache.

(** C7: with [force_refresh] false, a second call made on the cache file
    the first call left behind returns the same schema information, and
    leaves the cache file as it is. *)
Theorem get_schema_info_idempotent (cache : cache_file)
    (introspection1 introspection2 : result (list schema_row * list fk_row))
    (j : json) (cache1 : cache_file) :
  get_schema_info false cache introspection1 = (Ret j, cache1) ->
  get_schema_info false cache1 introspection2 = (Ret j, cache1).
Proof.
  unfold get_schema_info. destruct cache as [text|].
  - destruct (load text) as [j'|] eqn:E; intros H; inversion H; subst.
    cbv beta iota. rewrite E. reflexivity.
  - destruct introspection1 as [[schema_data fk_data]|e]; intros H; [|discriminate H].
    set (info := build_schema_info schema_data fk_data) in *.
    change ((Ret info, Some (dump 0 info)) = (Ret j, cache1)) in H.
    injection H as <- <-.
    change ((match load (dump 0 info) with Some j => Ret j | None => Raise ValueError end,
             Some (dump 0 info)) = (Ret info, Some (dump 0 info))).
    unfold info. rewrite load_build_schema_info. reflexivity.
Qed.

Lemma get_schema_info_idempotent_witness :
  (get_schema_info false None (Ret ([sample_row], []))
     = (Ret sample_info, Some (dump 0 sample_info))) /\
  (get_schema_info false (Some (dump 0 sample_info)) (Raise ValueError)
     = (Ret sample_info, Some (dump 0 sample_info))).
Proof.
  split; [reflexivity|].
  apply (get_schema_info_idempotent None (Ret ([sample_row], [])) (Raise ValueError)
           sample_info (Some (dump 0 sample_info))).
  reflexivity.
Defined.

(* ================================================================== *)
(** * Further properties of the bot *)

Section Completeness.
Variable fl : flags.
Variable s : pystr.

Lemma ends_chr (c d : ascii) (i : nat) :
  s !! i = Some d -> chr_match fl c d = true -> In (S i) (ends fl s (Chr c) i).
Proof. intros H1 H2. simpl. rewrite H1, H2. left. reflexivity. Qed.

Lemma ends_cls (p : ascii -> bool) (d : ascii) (i : nat) :
  s !! i = Some d -> p d = true -> In (S i) (ends fl s (Cls p) i).
Proof. intros H1 H2. simpl. rewrite H1, H2. left. reflexivity. Qed.

Lemma ends_dot (d : ascii) (i : nat) :
  s !! i = Some d -> ch_eqb d "010"%char = false -> In (S i) (ends fl s Dot i).
Proof. intros H1 H2. simpl. rewrite H1, H2, orb_true_r. left. reflexivity. Qed.

Lemma ends_seq (a b : re) (i j k : nat) :
  In j (ends fl s a i) -> In k (ends fl s b j) -> In k (ends fl s (Seq a b) i).
Proof. intros H1 H2. simpl. apply in_flat_map. eauto. Qed.

Lemma ends_alt_l (a b : re) (i j : nat) : In j (ends fl s a i) -> In j (ends fl s (Alt a b) i).
Proof. intros H. simpl. apply in_or_app. left. exact H. Qed.

Lemma ends_alt_r (a b : re) (i j : nat) : In j (ends fl s b i) -> In j (ends fl s (Alt a b) i).
Proof. intros H. simpl. apply in_or_app. right. exact H. Qed.

Lemma ends_alts (rs : list re) (r : re) (i j : nat) :
  In r rs -> In j (ends fl s r i) -> In j (ends fl s (alts rs) i).
Proof.
  induction rs as [|r0 rs IH]; [contradiction|]. intros [<-|Hin] Hj.
  - destruct rs; [exact Hj|]. apply ends_alt_l. exact Hj.
  - destruct rs; [contradiction|]. apply ends_alt_r. apply IH; assumption.
Qed.

Lemma ends_wordb (i : nat) : boundary s i = true -> In i (ends fl s WordB i).
Proof. intros H. simpl. rewrite H. left. reflexivity. Qed.

Lemma ends_endl (i : nat) : at_end fl s i = true -> In i (ends fl s EndL i).
Proof. intros H. simpl. rewrite H. left. reflexivity. Qed.

Lemma ends_seqs_cons (r : re) (rs : list re) (i j k : nat) :
  rs <> [] -> In j (ends fl s r i) -> In k (ends fl s (seqs rs) j) ->
  In k (ends fl s (seqs (r :: rs)) i).
Proof. destruct rs; [congruence|]. intros _. apply ends_seq. Qed.

(** A star of a one-character pattern reaches every position up to which
    the pattern matches character by character. *)
Lemma ends_star_single (g : bool) (r : re) (i j : nat) :
  (forall n, i <= n < j -> In (S n) (ends fl s r n)) -> i <= j <= length s ->
  In j (ends fl s (Star g r) i).
Proof.
  remember (j - i) as d eqn:Hd. revert i Hd.
  induction d as [|d IH]; intros i Hd Hr Hij.
  - assert (j = i) as -> by lia. simpl.
    destruct g; [apply in_or_app; right; left; reflexivity|left; reflexivity].
  - assert (Hk : length s - i = S (length s - S i)) by lia.
    assert (H1 : In (S i) (ends fl s r i)) by (apply Hr; lia).
    assert (H2 : In j (ends fl s (Star g r) (S i))) by (apply IH; [lia| intros n Hn; apply Hr; lia | lia]).
    simpl ends. rewrite Hk.
    set (go := fix go (k i0 : nat) : list nat := match k with
      | 0 => [i0]
      | S k' => let more := flat_map (fun j0 => if i0 <? j0 then go k' j0 else []) (ends fl s r i0) in
                if g then more ++ [i0] else i0 :: more end).
    assert (Hin : In j (flat_map (fun j0 => if i <? j0 then go (S (length s - S i)) j0 else [])
                                 (ends fl s r i))).
    { apply in_flat_map. exists (S i). split; [exact H1|].
      rewrite (proj2 (Nat.ltb_lt i (S i)) ltac:(lia)). exact H2. }
    cbn [go]. destruct g; [apply in_or_app; left; exact Hin|right; exact Hin].
Qed.

Lemma search_from_some (r : re) (k i p j : nat) :
  i <= p -> p < i + k -> In j (ends fl s r p) -> search_from fl s r k i <> None.
Proof.
  revert i. induction k as [|k IH]; intros i H1 H2 H3; [lia|]. simpl.
  destruct (ends fl s r i) eqn:E; [|discriminate].
  destruct (Nat.eq_dec i p) as [->|Hne]; [rewrite E in H3; contradiction|].
  apply IH; lia || assumption.
Qed.

Lemma search_complete (r : re) (p j : nat) :
  p <= length s -> In j (ends fl s r p) -> search fl r s = true.
Proof.
  intros Hp Hj. unfold search, search_at.
  destruct (search_from fl s r (S (length s - 0)) 0) eqn:E; [reflexivity|].
  exfalso. exact (search_from_some r (S (length s - 0)) 0 p j ltac:(lia) ltac:(lia) Hj E).
Qed.

End Completeness.

Lemma ends_str_app (fl : flags) (w w' : pystr) :
  Forall2 (fun c d => chr_match fl c d = true) w w' -> w <> [] ->
  forall a b, In (length a + length w) (ends fl (a ++ w' ++ b) (str w) (length a)).
Proof.
  induction 1 as [|c d w w' Hcd HF IH]; intros Hne a b; [congruence|].
  assert (Hl : (a ++ (d :: w') ++ b) !! length a = Some d)
    by (apply list_lookup_middle; reflexivity).
  destruct w as [|c' w].
  - inversion HF; subst. change (str [c]) with (Chr c).
    replace (length a + length [c]) with (S (length a)) by (simpl; lia).
    apply ends_chr with d; assumption.
  - change (str (c :: c' :: w)) with (Seq (Chr c) (str (c' :: w))).
    apply ends_seq with (j := S (length a)); [apply ends_chr with d; assumption|].
    specialize (IH ltac:(discriminate) (a ++ [d]) b).
    rewrite length_app, <- app_assoc in IH. simpl in IH.
    replace (length a + length (c :: c' :: w)) with (length a + 1 + length (c' :: w))
      by (simpl; lia).
    replace (S (length a)) with (length a + 1) by lia. exact IH.
Qed.

Lemma boundary_start (a w b : pystr) (c : ascii) (w0 : pystr) :
  w = c :: w0 -> is_word c = true -> sep_before a = true ->
  boundary (a ++ w ++ b) (length a) = true.
Proof.
  intros -> Hc Ha. destruct a as [|x a'] using rev_ind.
  - simpl. unfold word_at. simpl. exact Hc.
  - clear IHa'. unfold sep_before in Ha. rewrite last_snoc in Ha.
    rewrite length_app. simpl. replace (length a' + 1) with (S (length a')) by lia.
    unfold boundary, word_at.
    replace ((a' ++ [x]) ++ c :: w0 ++ b) with (a' ++ x :: c :: w0 ++ b)
      by (rewrite <- app_assoc; reflexivity).
    unfold pystr in *. rewrite list_lookup_middle by reflexivity.
    rewrite lookup_app_r by lia.
    replace (S (length a') - length a') with 1 by lia.
    simpl. apply negb_true_iff in Ha. rewrite Ha, Hc. reflexivity.
Qed.

Lemma boundary_end (a w b : pystr) (c : ascii) (w0 : pystr) :
  w = w0 ++ [c] -> is_word c = true -> sep_after b = true ->
  boundary (a ++ w ++ b) (length a + length w) = true.
Proof.
  intros -> Hc Hb. rewrite length_app. simpl.
  replace (length a + (length w0 + 1)) with (S (length a + length w0)) by lia.
  unfold boundary, word_at.
  replace (a ++ (w0 ++ [c]) ++ b) with ((a ++ w0) ++ c :: b) by (rewrite <- !app_assoc; reflexivity).
  unfold pystr in *.
  rewrite list_lookup_middle by (rewrite length_app; reflexivity).
  rewrite lookup_app_r by (rewrite length_app; lia).
  rewrite length_app. replace (S (length a + length w0) - (length a + length w0)) with 1 by lia.
  destruct b as [|x b]; simpl; rewrite Hc; [reflexivity|].
  unfold sep_after in Hb. apply negb_true_iff in Hb. rewrite Hb. reflexivity.
Qed.

Lemma is_word_lower (c : ascii) : is_word (lower_char c) = is_word c.
Proof. destruct c as [[] [] [] [] [] [] [] []]; reflexivity. Qed.

Lemma lower_char_idem (c : ascii) : lower_char (lower_char c) = lower_char c.
Proof. destruct c as [[] [] [] [] [] [] [] []]; reflexivity. Qed.

Lemma forall2_icase (fl : flags) (w : pystr) :
  icase fl = true -> Forall2 (fun c d => chr_match fl c d = true) (py_lower w) w.
Proof.
  intros Hi. induction w as [|d w IH]; constructor; [|exact IH].
  unfold chr_match. rewrite Hi, lower_char_idem. apply Nat.eqb_refl.
Qed.

Lemma forall2_exact (fl : flags) (w : pystr) :
  icase fl = false -> Forall2 (fun c d => chr_match fl c d = true) w w.
Proof.
  intros Hi. induction w as [|d w IH]; constructor; [|exact IH].
  unfold chr_match. rewrite Hi. apply Nat.eqb_refl.
Qed.

(** A word [w] framed by non-word characters and matched by [r] is found
    by [\b r \b]. *)
Lemma search_framed (fl : flags) (r : re) (a w b : pystr) :
  In (length a + length w) (ends fl (a ++ w ++ b) r (length a)) ->
  (exists c w0, w = c :: w0 /\ is_word c = true) ->
  (exists c w0, w = w0 ++ [c] /\ is_word c = true) ->
  sep_before a = true -> sep_after b = true ->
  search fl (seqs [WordB; r; WordB]) (a ++ w ++ b) = true.
Proof.
  intros Hr (c1 & w1 & Hw1 & Hc1) (c2 & w2 & Hw2 & Hc2) Ha Hb.
  apply (search_complete fl _ _ (length a) (length a + length w)).
  - rewrite !length_app. lia.
  - apply ends_seqs_cons with (j := length a); [discriminate| |].
    + apply ends_wordb. eapply boundary_start; eassumption.
    + apply ends_seqs_cons with (j := length a + length w); [discriminate|exact Hr|].
      apply ends_wordb. eapply boundary_end; eassumption.
Qed.

Lemma word_ends_spec (g : pystr) : word_ends g = true ->
  (exists c w0, g = c :: w0 /\ is_word c = true) /\
  (exists c w0, g = w0 ++ [c] /\ is_word c = true).
Proof.
  destruct g as [|c t]; simpl; [discriminate|]. intros H.
  destruct (last (c :: t)) as [c'|] eqn:E; [|rewrite andb_false_r in H; discriminate].
  apply andb_true_iff in H as [H1 H2]. split; [eauto|].
  apply last_Some in E as [l' E]. exists c', l'. split; [exact E|exact H2].
Qed.

Lemma word_ends_lower (w : pystr) : word_ends (py_lower w) = word_ends w.
Proof.
  destruct w as [|x w' _] using rev_ind; [reflexivity|].
  unfold word_ends, py_lower. rewrite map_app. simpl map.
  unfold pystr in *. rewrite !last_snoc.
  destruct w' as [|y w'']; simpl; rewrite !is_word_lower; reflexivity.
Qed.

Lemma sep_before_lower (a : pystr) : sep_before (py_lower a) = sep_before a.
Proof.
  destruct a as [|x a' _] using rev_ind; [reflexivity|].
  unfold sep_before, py_lower. rewrite map_app. simpl map.
  unfold pystr in *. rewrite !last_snoc. rewrite is_word_lower. reflexivity.
Qed.

Lemma sep_after_lower (b : pystr) : sep_after (py_lower b) = sep_after b.
Proof. destruct b; simpl; [reflexivity|]. rewrite is_word_lower. reflexivity. Qed.

Lemma py_lower_app (a b : pystr) : py_lower (a ++ b) = py_lower a ++ py_lower b.
Proof. apply map_app. Qed.

Lemma greeting_search (a w b : pystr) :
  In (py_lower w) greetings -> sep_before a = true -> sep_after b = true ->
  is_greeting (a ++ w ++ b) = true.
Proof.
  intros Hg Ha Hb. unfold is_greeting. apply existsb_exists.
  exists (py_lower w). split; [exact Hg|].
  assert (Hall : forallb word_ends greetings = true) by reflexivity.
  rewrite forallb_forall in Hall. specialize (Hall _ Hg).
  rewrite word_ends_lower in Hall. destruct (word_ends_spec _ Hall) as [H1 H2].
  apply search_framed; try assumption.
  replace (length w) with (length (py_lower w)) by apply length_map.
  apply ends_str_app; [apply forall2_icase; reflexivity|].
  destruct H1 as (c & w0 & -> & _). discriminate.
Qed.

(** X1: a greeting, in any letter case, standing as a whole word. *)
Theorem is_greeting_framed (a w b : pystr) :
  In (py_lower w) greetings -> sep_before a = true -> sep_after b = true ->
  is_greeting (a ++ w ++ b) = true.
Proof. exact (greeting_search a w b). Qed.

Lemma is_greeting_framed_witness :
  In (py_lower (lit "HeLLo")) greetings /\ sep_before (lit "well, ") = true /\
  sep_after (lit "!") = true /\ is_greeting (lit "well, " ++ lit "HeLLo" ++ lit "!") = true.
Proof.
  assert (H : In (py_lower (lit "HeLLo")) greetings) by (simpl; auto).
  split; [exact H|]. split; [reflexivity|]. split; [reflexivity|].
  apply is_greeting_framed; [exact H|reflexivity|reflexivity].
Defined.

(** X2: a mutating keyword standing as a whole word, in any case. *)
Theorem is_query_safe_rejects_keyword (a w b : pystr) :
  In (py_lower w) (map lit ["drop"; "delete"; "truncate"; "alter"; "shutdown";
                            "insert"; "update"; "merge"]%string) ->
  sep_before a = true -> sep_after b = true ->
  _is_query_safe (a ++ w ++ b) = false.
Proof.
  intros Hk Ha Hb. unfold _is_query_safe. apply negb_false_iff, existsb_exists.
  eexists; split; [left; reflexivity|].
  rewrite !py_lower_app.
  assert (Hall : forallb word_ends (map lit ["drop"; "delete"; "truncate"; "alter"; "shutdown";
                            "insert"; "update"; "merge"]%string) = true) by reflexivity.
  rewrite forallb_forall in Hall. specialize (Hall _ Hk).
  destruct (word_ends_spec _ Hall) as [H1 H2].
  apply search_framed; [|exact H1|exact H2|rewrite sep_before_lower; exact Ha
                        |rewrite sep_after_lower; exact Hb].
  apply in_map_iff in Hk as (k & Hkw & Hin).
  apply ends_alts with (r := word k); [apply in_map; exact Hin|].
  unfold word. rewrite Hkw.
  apply ends_str_app; [apply forall2_exact; reflexivity|].
  destruct H1 as (c & w0 & -> & _). discriminate.
Qed.

Lemma is_query_safe_rejects_keyword_witness :
  In (py_lower (lit "Drop")) (map lit ["drop"; "delete"; "truncate"; "alter"; "shutdown";
                            "insert"; "update"; "merge"]%string) /\
  _is_query_safe (lit "select 1; " ++ lit "Drop" ++ lit " table x") = false.
Proof.
  assert (H : In (py_lower (lit "Drop")) (map lit ["drop"; "delete"; "truncate"; "alter"; "shutdown";
                            "insert"; "update"; "merge"]%string)) by (simpl; auto).
  split; [exact H|]. apply is_query_safe_rejects_keyword; [exact H|reflexivity|reflexivity].
Defined.

Section SubChars.
Variable fl : flags.
Variable s : pystr.

Lemma search_from_spec (r : re) (k i st en : nat) :
  search_from fl s r k i = Some (st, en) ->
  i <= st /\ (forall n, i <= n < st -> ends fl s r n = []) /\ In en (ends fl s r st).
Proof.
  revert i. induction k as [|k IH]; intros i H; simpl in H; [discriminate|].
  destruct (ends fl s r i) as [|j l] eqn:E.
  - destruct (IH _ H) as (H1 & H2 & H3). split; [lia|]. split; [|exact H3].
    intros n Hn. destruct (Nat.eq_dec n i) as [->|]; [exact E|]. apply H2. lia.
  - injection H as <- <-. split; [lia|]. split; [intros; lia|]. rewrite E. left. reflexivity.
Qed.

Lemma search_from_none (r : re) (k i : nat) :
  search_from fl s r k i = None -> forall n, i <= n < i + k -> ends fl s r n = [].
Proof.
  revert i. induction k as [|k IH]; intros i H n Hn; [lia|]. simpl in H.
  destruct (ends fl s r i) as [|j l] eqn:E; [|discriminate].
  destruct (Nat.eq_dec n i) as [->|]; [exact E|]. apply (IH _ H). lia.
Qed.

Lemma in_drop_lookup (i : nat) (c : ascii) :
  In c (drop i s) -> exists n, i <= n /\ s !! n = Some c.
Proof.
  intros H. apply list_elem_of_In, list_elem_of_lookup in H as [j Hj].
  rewrite lookup_drop in Hj. exists (i + j). split; [lia|exact Hj].
Qed.

Lemma in_take_drop_lookup (m i : nat) (c : ascii) :
  In c (take m (drop i s)) -> exists n, i <= n < i + m /\ s !! n = Some c.
Proof.
  intros H. apply list_elem_of_In, list_elem_of_lookup in H as [j Hj].
  apply lookup_take_Some in Hj as [Hj Hlt].
  rewrite lookup_drop in Hj. exists (i + j). split; [lia|exact Hj].
Qed.

Lemma in_lookup (n : nat) (c : ascii) : s !! n = Some c -> In c s.
Proof. intros H. apply list_elem_of_In, list_elem_of_lookup. eauto. Qed.

(** Every character [re.sub] outputs comes from the input or the
    replacement. *)
Lemma sub_from_in (r : re) (repl : pystr) (k i : nat) (c : ascii) :
  In c (sub_from fl s r repl k i) -> In c s \/ In c repl.
Proof.
  revert i. induction k as [|k IH]; intros i H; simpl in H.
  - destruct (in_drop_lookup _ _ H) as (n & _ & Hn). left. eapply in_lookup; eauto.
  - destruct (search_at fl s r i) as [[st en]|].
    + apply in_app_iff in H as [H|H].
      * destruct (in_take_drop_lookup _ _ _ H) as (n & _ & Hn). left. eapply in_lookup; eauto.
      * apply in_app_iff in H as [H|H]; [right; exact H|].
        destruct (st <? en); [apply (IH _ H)|].
        destruct (s !! st) eqn:E; [|contradiction].
        destruct H as [<-|H]; [left; eapply in_lookup; eauto|apply (IH _ H)].
    + destruct (in_drop_lookup _ _ H) as (n & _ & Hn). left. eapply in_lookup; eauto.
Qed.

(** [re.sub] of a one-character class by the empty string deletes every
    character of the class. *)
Lemma sub_from_cls (p : ascii -> bool) (k i : nat) (c : ascii) :
  length s < i + k -> In c (sub_from fl s (Cls p) [] k i) -> In c s /\ p c = false.
Proof.
  revert i. induction k as [|k IH]; intros i Hk H; simpl in H.
  - rewrite drop_ge in H by lia. contradiction.
  - unfold search_at in H.
    destruct (search_from fl s (Cls p) (S (length s - i)) i) as [[st en]|] eqn:E.
    + destruct (search_from_spec _ _ _ _ _ E) as (H1 & H2 & H3).
      simpl in H3. destruct (s !! st) as [d|] eqn:Est; [|contradiction].
      destruct (p d); [|contradiction]. destruct H3 as [<-|[]].
      apply in_app_iff in H as [H|H].
      * destruct (in_take_drop_lookup _ _ _ H) as (n & Hn & Hs).
        split; [eapply in_lookup; eauto|].
        specialize (H2 n ltac:(lia)). simpl in H2. rewrite Hs in H2.
        destruct (p c); [discriminate|reflexivity].
      * simpl in H. rewrite (proj2 (Nat.ltb_lt st (S st)) ltac:(lia)) in H.
        assert (st < length s) by (apply lookup_lt_is_Some; eauto).
        apply (IH (S st)); [lia|exact H].
    + destruct (in_drop_lookup _ _ H) as (n & Hn & Hs).
      split; [eapply in_lookup; eauto|].
      assert (n < length s) by (apply lookup_lt_is_Some; eauto).
      pose proof (search_from_none _ _ _ E n ltac:(lia)) as Hz. simpl in Hz.
      rewrite Hs in Hz. destruct (p c); [discriminate|reflexivity].
Qed.

End SubChars.

Lemma sub_in (fl : flags) (r : re) (repl s : pystr) (c : ascii) :
  In c (sub fl r repl s) -> In c s \/ In c repl.
Proof. apply sub_from_in. Qed.

Lemma sub_cls (fl : flags) (p : ascii -> bool) (s : pystr) (c : ascii) :
  In c (sub fl (Cls p) [] s) -> In c s /\ p c = false.
Proof. apply sub_from_cls. lia. Qed.

Lemma lstrip_in (s : pystr) (c : ascii) : In c (lstrip s) -> In c s.
Proof. induction s as [|d s IH]; simpl; [auto|]. destruct (is_space d); simpl; auto. Qed.

Lemma py_strip_in (s : pystr) (c : ascii) : In c (py_strip s) -> In c s.
Proof.
  unfold py_strip. intros H. apply in_rev in H. apply lstrip_in in H.
  apply in_rev in H. apply lstrip_in in H. exact H.
Qed.

Lemma split_on_in (sep : ascii) (s w : pystr) (c : ascii) :
  In w (split_on sep s) -> In c w -> In c s /\ ch_eqb c sep = false.
Proof.
  revert w. induction s as [|d s IH]; intros w Hw Hc; simpl in Hw.
  - destruct Hw as [<-|[]]. contradiction.
  - destruct (ch_eqb d sep) eqn:Ed.
    + destruct Hw as [<-|Hw]; [contradiction|]. destruct (IH _ Hw Hc). split; [right|]; assumption.
    + destruct (split_on sep s) as [|w0 ws] eqn:Es.
      * destruct Hw as [<-|[]]. destruct Hc as [<-|[]]. split; [left; reflexivity|exact Ed].
      * destruct Hw as [<-|Hw].
        -- destruct Hc as [<-|Hc]; [split; [left; reflexivity|exact Ed]|].
           destruct (IH w0 ltac:(left; reflexivity) Hc). split; [right|]; assumption.
        -- destruct (IH w ltac:(right; exact Hw) Hc). split; [right|]; assumption.
Qed.

Lemma first_field_in (sep : ascii) (s : pystr) (c : ascii) :
  In c (first_field sep s) -> In c s /\ ch_eqb c sep = false.
Proof.
  unfold first_field. destruct (split_on sep s) as [|w ws] eqn:E; [contradiction|].
  intros H. apply (split_on_in sep s w); [rewrite E; left; reflexivity|exact H].
Qed.

Lemma join_in (sep : pystr) (ws : list pystr) (c : ascii) :
  In c (join sep ws) -> In c sep \/ exists w, In w ws /\ In c w.
Proof.
  induction ws as [|w ws IH]; simpl; [contradiction|]. intros H.
  destruct ws as [|w' ws'].
  - right. exists w. auto.
  - apply in_app_iff in H as [H|H]; [right; exists w; auto|].
    apply in_app_iff in H as [H|H]; [left; exact H|].
    destruct (IH H) as [H'|(w0 & Hw0 & Hc)]; [left; exact H'|right; exists w0; auto].
Qed.

(** The line filter of [_clean_sql]. *)
Lemma keep_in (lines : list pystr) (l : pystr) (c : ascii) :
  In l ((fix keep (lines : list pystr) : list pystr :=
       match lines with
       | [] => []
       | line :: rest =>
           let line := py_strip line in
           if negb (bool_decide (line = [])) then
             if ends_with [";"%char] line then [line] else line :: keep rest
           else keep rest
       end) lines) -> In c l -> exists line, In line lines /\ In c line.
Proof.
  induction lines as [|line rest IH]; intros Hl Hc; [contradiction|].
  cbn [In] in Hl |- *. cbv zeta in Hl.
  destruct (negb (bool_decide (py_strip line = [])));
    [destruct (ends_with [";"%char] (py_strip line))|].
  - destruct Hl as [<-|[]]. exists line. split; [left; reflexivity|apply py_strip_in; exact Hc].
  - destruct Hl as [<-|Hl]; [exists line; split; [left; reflexivity|apply py_strip_in; exact Hc]|].
    destruct (IH Hl Hc) as (line0 & H1 & H2). exists line0. split; [right; exact H1|exact H2].
  - destruct (IH Hl Hc) as (line0 & H1 & H2). exists line0. split; [right; exact H1|exact H2].
Qed.

Lemma strip_ws_in (z : pystr) (c : ascii) :
  In c (py_strip (sub noflags (plus space) [" "%char] z)) -> In c z \/ c = " "%char.
Proof.
  intros Hz. apply py_strip_in, sub_in in Hz as [Hz|[Hz|[]]];
    [left; exact Hz|right; symmetry; exact Hz].
Qed.

Lemma clean_sql_chars (sql0 : pystr) (c : ascii) :
  In c (_clean_sql sql0) -> ch_eqb c ";" = false /\ oneof "/\" c = false.
Proof.
  unfold _clean_sql. intros H.
  apply py_strip_in, join_in in H as [H|(l & Hl & Hcl)].
  { destruct H as [<-|[]]. split; reflexivity. }
  destruct (keep_in _ _ _ Hl Hcl) as (line & Hline & Hd).
  apply (split_on_in _ _ _ _ Hline) in Hd as [Hd _].
  apply py_strip_in, first_field_in in Hd as [Hd Hsemi]. split; [exact Hsemi|].
  destruct (_ && _) in Hd.
  - apply sub_in in Hd as [Hd|Hd].
    + apply strip_ws_in in Hd as [Hd| ->]; [|reflexivity]. apply sub_cls in Hd as [_ Hd]. exact Hd.
    + assert (Ht : forallb (fun d => negb (oneof "/\" d)) select_top = true) by reflexivity.
      rewrite forallb_forall in Ht. apply negb_true_iff, Ht, Hd.
  - apply strip_ws_in in Hd as [Hd| ->]; [|reflexivity]. apply sub_cls in Hd as [_ Hd]. exact Hd.
Qed.

(** X3: the cleaned SQL contains no semicolon, no slash and no backslash. *)
Theorem clean_sql_no_separators (sql0 : pystr) :
  ~ In ";"%char (_clean_sql sql0) /\ ~ In "/"%char (_clean_sql sql0)
  /\ ~ In "\"%char (_clean_sql sql0).
Proof.
  split; [|split]; intros H; apply clean_sql_chars in H as [H1 H2];
    first [exact (diff_true_false H1)|exact (diff_true_false H2)].
Qed.

Lemma lower_char_slash (c : ascii) : oneof "/\" c = true -> lower_char c = c.
Proof. destruct c as [[] [] [] [] [] [] [] []]; intros H; first [reflexivity|discriminate H]. Qed.

Lemma lower_char_newline (c : ascii) : ch_eqb (lower_char c) "010" = ch_eqb c "010".
Proof. destruct c as [[] [] [] [] [] [] [] []]; reflexivity. Qed.

Lemma lookup_py_lower (t : pystr) (n : nat) (d : ascii) :
  t !! n = Some d -> py_lower t !! n = Some (lower_char d).
Proof. intros H. unfold py_lower, pystr in *. rewrite list_lookup_fmap, H. reflexivity. Qed.

(** X4: any slash or backslash makes the query unsafe. *)
Theorem is_query_safe_rejects_slash (a b : pystr) (c : ascii) :
  oneof "/\" c = true -> _is_query_safe (a ++ c :: b) = false.
Proof.
  intros Hc. unfold _is_query_safe. apply negb_false_iff, existsb_exists.
  exists (Cls (oneof "/\")). split; [do 6 right; left; reflexivity|].
  rewrite py_lower_app. change (py_lower (c :: b)) with (lower_char c :: py_lower b).
  rewrite (lower_char_slash _ Hc).
  apply (search_complete _ _ _ (length (py_lower a)) (S (length (py_lower a)))).
  - rewrite length_app. simpl. lia.
  - apply ends_cls with c; [|exact Hc]. unfold pystr in *.
    apply list_lookup_middle. reflexivity.
Qed.

Lemma is_query_safe_rejects_slash_witness :
  oneof "/\" "\"%char = true /\
  _is_query_safe (lit "select * from Customers" ++ "\"%char :: lit "x") = false.
Proof.
  split; [reflexivity|]. apply is_query_safe_rejects_slash. reflexivity.
Defined.

(** X5: a line comment that runs to the end of the text makes the query unsafe. *)
Theorem is_query_safe_rejects_final_comment (a t : pystr) :
  ~ In "010"%char t -> _is_query_safe (a ++ "-"%char :: "-"%char :: t) = false.
Proof.
  intros Ht. unfold _is_query_safe. apply negb_false_iff, existsb_exists.
  exists (seqs [Chr "-"; Chr "-"; dotstar; EndL]). split; [do 5 right; left; reflexivity|].
  rewrite py_lower_app.
  change (py_lower ("-"%char :: "-"%char :: t)) with (["-"%char; "-"%char] ++ py_lower t).
  rewrite app_assoc. set (x := py_lower a ++ ["-"%char; "-"%char]).
  assert (Hx : length x = S (S (length (py_lower a)))) by (unfold x; rewrite length_app; simpl; lia).
  set (s := x ++ py_lower t).
  assert (Hs : length s = length x + length t) by (unfold s, py_lower; rewrite length_app, length_map; reflexivity).
  apply (search_complete _ _ _ (length (py_lower a)) (length s)); [lia|].
  apply ends_seqs_cons with (j := S (length (py_lower a))); [discriminate| |].
  { apply ends_chr with "-"%char; [|reflexivity].
    unfold s, x. rewrite <- app_assoc. unfold pystr in *. apply list_lookup_middle. reflexivity. }
  apply ends_seqs_cons with (j := length x); [discriminate| |].
  { rewrite Hx. apply ends_chr with "-"%char; [|reflexivity].
    unfold s, x. rewrite <- !app_assoc. unfold pystr in *.
    rewrite lookup_app_r by lia. replace (S (length (py_lower a)) - length (py_lower a)) with 1 by lia.
    reflexivity. }
  apply ends_seqs_cons with (j := length s); [discriminate| |].
  - apply ends_star_single; [|lia].
    intros n Hn. assert (Hk : n - length x < length t) by lia.
    apply lookup_lt_is_Some in Hk as [d Hd].
    apply ends_dot with (lower_char d).
    + unfold s. unfold pystr in *. rewrite lookup_app_r by lia. apply lookup_py_lower. exact Hd.
    + rewrite lower_char_newline. destruct (ch_eqb d "010") eqn:E; [|reflexivity].
      exfalso. apply Ht. apply Nat.eqb_eq in E.
      assert (d = "010"%char) as -> by (rewrite <- (ascii_nat_embedding d); unfold code in E; rewrite E; reflexivity).
      eapply in_lookup; exact Hd.
  - apply ends_endl. unfold at_end. rewrite Nat.eqb_refl. reflexivity.
Qed.

Lemma is_query_safe_rejects_final_comment_witness :
  ~ In "010"%char (lit " note") /\
  _is_query_safe (lit "select * from t " ++ "-"%char :: "-"%char :: lit " note") = false.
Proof.
  assert (H : ~ In "010"%char (lit " note")) by (simpl; intuition discriminate).
  split; [exact H|]. apply is_query_safe_rejects_final_comment. exact H.
Defined.

Lemma range_from_concat (text : pystr) (f i : nat) :
  length text <= i + f ->
  concat (map (fun i => take 4096 (drop i text)) (range_from f i (length text) 4096))
  = drop i text.
Proof.
  revert i. induction f as [|f IH]; intros i Hf; simpl.
  - rewrite drop_ge by lia. reflexivity.
  - destruct (Nat.ltb_spec i (length text)).
    + simpl. rewrite IH by lia. rewrite <- drop_drop. apply take_drop.
    + rewrite drop_ge by lia. reflexivity.
Qed.

Lemma range_from_bounds (f i stop step k : nat) :
  In k (range_from f i stop step) -> i <= k < stop.
Proof.
  revert i. induction f as [|f IH]; intros i H; simpl in H; [contradiction|].
  destruct (Nat.ltb_spec i stop); [|contradiction].
  destruct H as [<-|H]; [lia|]. apply IH in H. lia.
Qed.

(** X6: the messages sent, put together, give back the whole text. *)
Theorem send_long_message_concat (text : pystr) :
  concat (send_long_message text) = text.
Proof. unfold send_long_message, py_range. rewrite range_from_concat by lia. reflexivity. Qed.

(** X7: every message sent is non-empty and at most 4096 characters long. *)
Theorem send_long_message_sizes (text m : pystr) :
  In m (send_long_message text) -> 1 <= length m <= 4096.
Proof.
  unfold send_long_message, py_range. intros H.
  apply in_map_iff in H as (k & <- & Hk). apply range_from_bounds in Hk.
  rewrite length_take, length_drop. lia.
Qed.

Lemma send_long_message_sizes_witness :
  In (lit "hello") (send_long_message (lit "hello")) /\
  1 <= length (lit "hello") <= 4096.
Proof.
  assert (H : In (lit "hello") (send_long_message (lit "hello")))
    by (vm_compute; left; reflexivity).
  split; [exact H|]. exact (send_long_message_sizes _ _ H).
Defined.

(** X8: a check for one user leaves the windows of all other users as they are. *)
Theorem check_rate_limit_other_users (u v : Z) (now : Q) (st : user_requests) :
  v <> u -> (check_rate_limit u now st).2 !! v = st !! v.
Proof.
  intros Hne. unfold check_rate_limit.
  destruct (st !! u); cbv zeta;
    destruct (Nat.leb _ _); simpl; rewrite ?lookup_insert_ne by congruence; reflexivity.
Qed.

Lemma check_rate_limit_other_users_witness :
  (2 <> 1)%Z /\
  (check_rate_limit 1 (inject_Z 100) (<[2%Z := [inject_Z 99]]> ∅)).2 !! 2%Z = Some [inject_Z 99].
Proof.
  split; [lia|]. rewrite check_rate_limit_other_users by lia.
  apply lookup_insert_eq.
Defined.

(** X9: a user whose recorded requests are all at least 60 seconds old is
    let through, and their window becomes just this request. *)
Theorem check_rate_limit_stale_window (u : Z) (now : Q) (st : user_requests) :
  Forall (fun t => fresh now t = false) (window u st) ->
  check_rate_limit u now st = (true, <[u := [now]]> st).
Proof.
  unfold window. intros Hw. unfold check_rate_limit.
  destruct (st !! u) as [w|] eqn:E; cbv zeta; simpl in Hw.
  - rewrite E. simpl.
    assert (Hf : List.filter (fresh now) w = []).
    { clear E. induction w as [|t w IH]; [reflexivity|].
      apply List.Forall_cons_iff in Hw as [Ht Hw]. simpl. rewrite Ht. apply IH. exact Hw. }
    rewrite Hf. simpl. rewrite insert_insert_eq. reflexivity.
  - rewrite lookup_insert_eq. simpl. rewrite !insert_insert_eq. reflexivity.
Qed.

Lemma check_rate_limit_stale_window_witness :
  Forall (fun t => fresh (inject_Z 100) t = false) (window 1 (<[1%Z := [inject_Z 10]]> ∅)) /\
  check_rate_limit 1 (inject_Z 100) (<[1%Z := [inject_Z 10]]> ∅)
  = (true, <[1%Z := [inject_Z 100]]> (<[1%Z := [inject_Z 10]]> ∅)).
Proof.
  assert (H : Forall (fun t => fresh (inject_Z 100) t = false) (window 1 (<[1%Z := [inject_Z 10]]> ∅))).
  { unfold window. rewrite lookup_insert_eq. simpl. constructor; [reflexivity|constructor]. }
  split; [exact H|]. apply check_rate_limit_stale_window. exact H.
Defined.

(** X10: [generate_sql] returns the result of the first of its three attempts
    that succeeds, and [None] exactly when all three fail. *)
Theorem generate_sql_first_success (model : nat -> option pystr) :
  (generate_sql model = None <->
     forall a, a < MAX_SQL_ATTEMPTS -> sql_attempt model a = None) /\
  (forall sql, generate_sql model = Some sql ->
     exists a, a < MAX_SQL_ATTEMPTS /\ sql_attempt model a = Some sql /\
               forall b, b < a -> sql_attempt model b = None).
Proof.
  unfold generate_sql, MAX_SQL_ATTEMPTS. simpl.
  destruct (sql_attempt model 0) as [s0|] eqn:E0; simpl.
  { split; [split; [discriminate|intros H; rewrite H in E0; [discriminate|lia]]|].
    intros sql [= <-]. exists 0. split; [lia|]. split; [exact E0|intros; lia]. }
  destruct (sql_attempt model 1) as [s1|] eqn:E1; simpl.
  { split; [split; [discriminate|intros H; rewrite H in E1; [discriminate|lia]]|].
    intros sql [= <-]. exists 1. split; [lia|]. split; [exact E1|].
    intros b Hb. assert (b = 0) as -> by lia. exact E0. }
  destruct (sql_attempt model 2) as [s2|] eqn:E2; simpl.
  { split; [split; [discriminate|intros H; rewrite H in E2; [discriminate|lia]]|].
    intros sql [= <-]. exists 2. split; [lia|]. split; [exact E2|].
    intros b Hb. destruct b as [|[|]]; [exact E0|exact E1|lia]. }
  split; [|discriminate]. split; [|reflexivity].
  intros _ a Ha. destruct a as [|[|[|]]]; [exact E0|exact E1|exact E2|lia].
Qed.

Lemma validate_and_normalise_chars (sql out : pystr) (c : ascii) :
  validate_and_normalise sql = Some out -> In c out -> In c sql \/ In c select_top.
Proof.
  unfold validate_and_normalise. intros H Hc.
  repeat match type of H with
         | (if ?b then None else _) = Some _ => destruct b; [discriminate|]
         end.
  injection H as <-. destruct (negb _); [apply sub_in in Hc|]; tauto.
Qed.

Lemma generate_sql_chars (model : nat -> option pystr) (sql : pystr) (c : ascii) :
  generate_sql model = Some sql -> In c sql -> ch_eqb c ";" = false /\ oneof "/\" c = false.
Proof.
  intros H Hc.
  assert (Ha : exists a, sql_attempt model a = Some sql).
  { unfold generate_sql in H. simpl in H.
    repeat match type of H with
           | match sql_attempt model ?a with Some _ => _ | None => _ end = _ =>
               destruct (sql_attempt model a) eqn:?; [injection H as <-; eexists; eassumption|]
           end. discriminate. }
  destruct Ha as [a Ha]. unfold sql_attempt in Ha.
  destruct (model a) as [raw|]; [|discriminate].
  destruct (validate_and_normalise_chars _ _ c Ha Hc) as [Hin|Hin].
  - exact (clean_sql_chars _ _ Hin).
  - assert (Ht : forallb (fun d => negb (ch_eqb d ";") && negb (oneof "/\" d)) select_top = true)
      by reflexivity.
    rewrite forallb_forall in Ht. specialize (Ht _ Hin).
    apply andb_true_iff in Ht as [H1 H2]. apply negb_true_iff in H1, H2. split; assumption.
Qed.

(** X11: an SQL statement returned by [generate_sql] contains no semicolon,
    no slash and no backslash. *)
Theorem generate_sql_no_separators (model : nat -> option pystr) (sql : pystr) :
  generate_sql model = Some sql ->
  ~ In ";"%char sql /\ ~ In "/"%char sql /\ ~ In "\"%char sql.
Proof.
  intros H.
  split; [|split]; intros Hin; apply (generate_sql_chars _ _ _ H) in Hin as [H1 H2];
    first [exact (diff_true_false H1)|exact (diff_true_false H2)].
Qed.

Lemma generate_sql_no_separators_witness :
  generate_sql (fun _ => Some (lit "SELECT * FROM Customers; DROP TABLE x"))
    = Some (lit "select top 50 * FROM Customers") /\
  ~ In ";"%char (lit "select top 50 * FROM Customers").
Proof.
  assert (H : generate_sql (fun _ => Some (lit "SELECT * FROM Customers; DROP TABLE x"))
              = Some (lit "select top 50 * FROM Customers")) by (vm_compute; reflexivity).
  split; [exact H|]. exact (proj1 (generate_sql_no_separators _ _ H)).
Defined.

Lemma generate_sql_first_success_witness :
  generate_sql (fun a => if Nat.eqb a 0 then None else Some (lit "select 1")) = Some (lit "select top 50 1") /\
  sql_attempt (fun a => if Nat.eqb a 0 then None else Some (lit "select 1")) 0 = None /\
  exists a, a < MAX_SQL_ATTEMPTS /\
    sql_attempt (fun a => if Nat.eqb a 0 then None else Some (lit "select 1")) a = Some (lit "select top 50 1") /\
    forall b, b < a -> sql_attempt (fun a => if Nat.eqb a 0 then None else Some (lit "select 1")) b = None.
Proof.
  assert (H : generate_sql (fun a => if Nat.eqb a 0 then None else Some (lit "select 1"))
              = Some (lit "select top 50 1")) by (vm_compute; reflexivity).
  split; [exact H|]. split; [reflexivity|].
  exact (proj2 (generate_sql_first_success _) _ H).
Defined.

(** X13: after any successful call, forced refresh or not, a call without
    [force_refresh] on the cache file left behind returns the same
    schema information without querying the database. *)
Theorem get_schema_info_refresh_then_cached (force_refresh : bool) (cache : cache_file)
    (introspection1 introspection2 : result (list schema_row * list fk_row))
    (j : json) (cache1 : cache_file) :
  get_schema_info force_refresh cache introspection1 = (Ret j, cache1) ->
  get_schema_info false cache1 introspection2 = (Ret j, cache1).
Proof.
  intros H.
  assert (Hfresh : forall schema_data fk_data,
             get_schema_info false (Some (dump 0 (build_schema_info schema_data fk_data))) introspection2
             = (Ret (build_schema_info schema_data fk_data),
                Some (dump 0 (build_schema_info schema_data fk_data)))).
  { intros schema_data fk_data. unfold get_schema_info.
    rewrite load_build_schema_info. reflexivity. }
  unfold get_schema_info in H.
  destruct cache as [text|]; [destruct force_refresh|].
  - destruct introspection1 as [[schema_data fk_data]|e]; [|discriminate H].
    injection H as <- <-. apply Hfresh.
  - destruct (load text) as [j'|] eqn:E; [|discriminate H]. injection H as <- <-.
    unfold get_schema_info. rewrite E. reflexivity.
  - destruct introspection1 as [[schema_data fk_data]|e]; [|discriminate H].
    injection H as <- <-. apply Hfresh.
Qed.

Lemma get_schema_info_refresh_then_cached_witness :
  get_schema_info true (Some (lit "{}")) (Ret ([sample_row], []))
    = (Ret sample_info, Some (dump 0 sample_info)) /\
  get_schema_info false (Some (dump 0 sample_info)) (Raise ConnectionError)
    = (Ret sample_info, Some (dump 0 sample_info)).
Proof.
  assert (H : get_schema_info true (Some (lit "{}")) (Ret ([sample_row], []))
              = (Ret sample_info, Some (dump 0 sample_info))) by reflexivity.
  split; [exact H|]. exact (get_schema_info_refresh_then_cached _ _ _ _ _ _ H).
Defined.

Lemma add_column_in (key k : pystr) (col : json) (t : list (pystr * list json)) (cols : list json) :
  NoDup (map fst t) ->
  In (k, cols) (add_column key col t) <->
  (k = key /\ ((exists old, In (k, old) t /\ cols = old ++ [col])
               \/ ((k ∉ map fst t) /\ cols = [col])))
  \/ (k <> key /\ In (k, cols) t).
Proof.
  induction t as [|[k' cols'] t IH]; intros Hnd; simpl.
  - split.
    + intros [[= <- <-]|[]]. left. split; [reflexivity|]. right. split; [apply not_elem_of_nil|reflexivity].
    + intros [[-> [(old & [] & _)|[_ ->]]]|[_ []]]. left. reflexivity.
  - apply NoDup_cons in Hnd as [Hk' Hnd]. case_bool_decide as E; simpl.
    + subst k'. split.
      * intros [[= <- <-]|Hin].
        -- left. split; [reflexivity|]. left. exists cols'. split; [left; reflexivity|reflexivity].
        -- destruct (decide (k = key)) as [->|Hne].
           ++ exfalso. apply Hk'. apply list_elem_of_In. apply (in_map fst) in Hin. exact Hin.
           ++ right. split; [exact Hne|right; exact Hin].
      * intros [[-> [(old & [Hin|Hin] & ->)|[Hnot _]]]|[Hne [Hin|Hin]]].
        -- injection Hin as <-. left. reflexivity.
        -- exfalso. apply Hk'. apply list_elem_of_In. apply (in_map fst) in Hin. exact Hin.
        -- exfalso. apply Hnot. left.
        -- injection Hin as -> ->. congruence.
        -- right. exact Hin.
    + rewrite (IH Hnd). split.
      * intros [[= -> ->]|[[-> [(old & Hin & ->)|[Hnot ->]]]|[Hne Hin]]].
        -- right. split; [congruence|left; reflexivity].
        -- left. split; [reflexivity|]. left. exists old. split; [right; exact Hin|reflexivity].
        -- left. split; [reflexivity|]. right. split; [|reflexivity].
           intros Hin. apply elem_of_cons in Hin as [->|Hin]; [congruence|exact (Hnot Hin)].
        -- right. split; [exact Hne|right; exact Hin].
      * intros [[-> [(old & [Hin|Hin] & ->)|[Hnot ->]]]|[Hne [Hin|Hin]]].
        -- injection Hin as ->. congruence.
        -- right. left. split; [reflexivity|]. left. eauto.
        -- right. left. split; [reflexivity|]. right. split; [|reflexivity].
           intros Hin. apply Hnot. right. exact Hin.
        -- left. exact Hin.
        -- right. right. split; assumption.
Qed.

(** X14: the "tables" part of the snapshot has one entry per table key, and
    the entry of a key lists the columns of exactly the introspected rows
    with that key, in query order. *)
Theorem build_tables_groups (schema_data : list schema_row) :
  NoDup (map fst (build_tables schema_data)) /\
  forall key cols,
    In (key, cols) (build_tables schema_data) <->
    cols = map column_json (List.filter (fun r => bool_decide (table_key r = key)) schema_data)
    /\ cols <> [].
Proof.
  split; [exact (proj1 (build_tables_ok schema_data))|].
  induction schema_data as [|r rs IH] using rev_ind; intros key cols.
  - simpl. split; [contradiction|]. intros [-> []]. reflexivity.
  - pose proof (proj1 (build_tables_ok rs)) as Hnd.
    unfold build_tables in *. rewrite fold_left_app. simpl.
    rewrite (add_column_in _ _ _ _ _ Hnd), List.filter_app, map_app. simpl.
    case_bool_decide as Ek; simpl.
    + subst key. split.
      * intros [[_ [(old & Hin & ->)|[Hnot ->]]]|[Hne _]]; [|split; [|discriminate]|congruence].
        -- apply IH in Hin as [-> _]. split; [reflexivity|]. intros Hc. apply app_eq_nil in Hc as [_ Hc]. discriminate.
        -- destruct (List.filter _ rs) as [|r' rs'] eqn:Ef; [reflexivity|].
           exfalso. apply Hnot. apply list_elem_of_In.
           apply (in_map fst) with (x := (table_key r, map column_json (r' :: rs'))).
           apply IH. rewrite Ef. split; [reflexivity|discriminate].
      * intros [-> _]. left. split; [reflexivity|].
        destruct (List.filter (fun r0 => bool_decide (table_key r0 = table_key r)) rs) as [|r' rs'] eqn:Ef.
        -- right. split; [|reflexivity]. intros Hin.
           apply list_elem_of_In, in_map_iff in Hin as ([k old] & Hk & Hin). simpl in Hk. subst k.
           apply IH in Hin as [Hold Hne]. rewrite Ef in Hold. exact (Hne Hold).
        -- left. exists (map column_json (r' :: rs')). split; [|reflexivity].
           apply IH. rewrite Ef. split; [reflexivity|discriminate].
    + rewrite app_nil_r. split.
      * intros [[-> _]|[_ Hin]]; [congruence|]. apply IH. exact Hin.
      * intros Hc. right. split; [congruence|]. apply IH. exact Hc.
Qed.

Lemma zip_fst_nodup {B} (l : list pystr) (k : list B) :
  NoDup l -> NoDup (map fst (zip l k)).
Proof.
  revert k. induction l as [|x l IH]; intros [|y k] Hnd; simpl; try (constructor; fail).
  inversion Hnd as [|? ? Hx Hnd']; subst. constructor; [|apply IH; exact Hnd'].
  intros Hin. apply Hx. apply list_elem_of_In, in_map_iff in Hin as ([a b] & Ha & Hin).
  simpl in Ha. subst a. apply list_elem_of_In in Hin. exact (elem_of_zip_l _ _ _ _ Hin).
Qed.

(** X15: when the column names of a result are pairwise distinct, each row
    dict [execute_query] returns pairs the columns with the row's values,
    in column order. *)
Theorem execute_query_rows_zip (drv : driver) (query : pystr) (columns : list pystr)
    (rs : list (list cell)) (results : list row) (tr : list event) :
  execute_outcome drv query = XRows columns rs -> NoDup columns ->
  execute_query drv query = (Ret (results, None), tr) ->
  results = map (fun r => zip columns r) rs.
Proof.
  intros Hx Hnd H.
  destruct (execute_query_ret
              (fun v => v.2 = None -> v.1 = map (fun r => zip columns r) rs)
              drv query) as [v [tr' [E HP]]];
    [discriminate|discriminate|discriminate| |].
  - intros v tr0. unfold cursor_body. rewrite Hx. simpl. intros Hb _.
    injection Hb as <- _. simpl. apply map_ext. intros r.
    apply dict_of_pairs_nodup, zip_fst_nodup, Hnd.
  - rewrite E in H. injection H as -> _. apply HP. reflexivity.
Qed.

Lemma execute_query_rows_zip_witness :
  execute_outcome healthy_driver (lit "select 1") = XRows [lit "x"] [[CNum 1]] /\
  NoDup [lit "x"] /\
  execute_query healthy_driver (lit "select 1")
    = (Ret ([[(lit "x", CNum 1)]], None),
       [EvConnect 0; EvExecute (lit "select 1"); EvCommit; EvClose]) /\
  [[(lit "x", CNum 1)]] = map (fun r => zip [lit "x"] r) [[CNum 1]].
Proof.
  assert (H1 : execute_outcome healthy_driver (lit "select 1") = XRows [lit "x"] [[CNum 1]]) by reflexivity.
  assert (H2 : NoDup [lit "x"]) by apply NoDup_singleton.
  assert (H3 : execute_query healthy_driver (lit "select 1")
    = (Ret ([[(lit "x", CNum 1)]], None),
       [EvConnect 0; EvExecute (lit "select 1"); EvCommit; EvClose])) by (vm_compute; reflexivity).
  split; [exact H1|]. split; [exact H2|]. split; [exact H3|].
  exact (execute_query_rows_zip _ _ _ _ _ _ H1 H2 H3).
Defined.

Section ConnectionProps.
Context {A : Type} (drv : driver) (body : M A).

Lemma conn_loop_no_pyodbc (yielded : bool) (k attempt : nat) (e : exn) (tr : list event) :
  conn_loop drv body yielded k attempt = (Raise e, tr) -> is_pyodbc e = false.
Proof.
  revert yielded attempt tr. induction k as [|k IH]; intros yielded attempt tr H; simpl in H.
  - injection H as <- _. reflexivity.
  - destruct (env_set drv); simpl in H; [|injection H as <- _; reflexivity].
    destruct (connect_fails drv attempt) as [msg|]; [eapply IH; exact H|].
    destruct yielded; simpl in H; [injection H as <- _; reflexivity|].
    destruct body as [[a|e0] tb].
    + destruct (commit_fails drv) as [msg|]; [|discriminate H].
      destruct (conn_loop drv (Ret a, tb) true k (S attempt)) as [r tr'] eqn:E.
      injection H as -> _. eapply IH. exact E.
    + destruct (is_pyodbc e0) eqn:Ep.
      * destruct (conn_loop drv (Raise e0, tb) true k (S attempt)) as [r tr'] eqn:E.
        injection H as -> _. eapply IH. exact E.
      * injection H as <- _. exact Ep.
Qed.

Lemma conn_loop_connects (yielded : bool) (k attempt : nat) (r : result A) (tr : list event) :
  List.filter is_connect body.2 = [] ->
  conn_loop drv body yielded k attempt = (r, tr) -> length (List.filter is_connect tr) <= k.
Proof.
  intros Hb. revert yielded attempt r tr. induction k as [|k IH]; intros yielded attempt r tr H; simpl in H.
  - injection H as _ <-. simpl. lia.
  - destruct (env_set drv); simpl in H; [|injection H as _ <-; simpl; lia].
    destruct (connect_fails drv attempt) as [msg|]; [apply IH in H; lia|].
    destruct yielded; simpl in H; [injection H as _ <-; simpl; lia|].
    destruct body as [[a|e0] tb]; simpl in Hb.
    + destruct (commit_fails drv) as [msg|].
      * destruct (conn_loop drv (Ret a, tb) true k (S attempt)) as [r' tr'] eqn:E.
        injection H as _ <-. apply IH in E. simpl. rewrite !List.filter_app, Hb. simpl. lia.
      * injection H as _ <-. simpl. rewrite !List.filter_app, Hb. simpl. lia.
    + destruct (is_pyodbc e0).
      * destruct (conn_loop drv (Raise e0, tb) true k (S attempt)) as [r' tr'] eqn:E.
        injection H as _ <-. apply IH in E. simpl. rewrite !List.filter_app, Hb. simpl. lia.
      * injection H as _ <-. simpl. rewrite !List.filter_app, Hb. simpl. lia.
Qed.

End ConnectionProps.

(** X16: [get_connection] never lets a [pyodbc.Error] out of the [with]
    statement: whatever exception leaves it, from the connection attempts,
    the body or the commit, is of another kind. *)
Theorem with_connection_no_pyodbc {A} (drv : driver) (body : M A) (e : exn) (tr : list event) :
  with_connection drv body = (Raise e, tr) -> is_pyodbc e = false.
Proof. apply conn_loop_no_pyodbc. Qed.

Lemma with_connection_no_pyodbc_witness :
  with_connection healthy_driver (mraise (A := unit) (PyodbcError (lit "deadlock")))
    = (Raise RuntimeError, [EvConnect 0; EvRollback; EvClose; EvConnect 1]) /\
  is_pyodbc RuntimeError = false.
Proof.
  assert (H : with_connection healthy_driver (mraise (A := unit) (PyodbcError (lit "deadlock")))
    = (Raise RuntimeError, [EvConnect 0; EvRollback; EvClose; EvConnect 1])) by reflexivity.
  split; [exact H|]. exact (with_connection_no_pyodbc _ _ _ _ H).
Defined.

(** X17: one call of [execute_query] opens at most [MAX_SQL_ATTEMPTS]
    connections. *)
Theorem execute_query_connects_bounded (drv : driver) (query : pystr) :
  length (List.filter is_connect (execute_query drv query).2) <= MAX_SQL_ATTEMPTS.
Proof.
  unfold execute_query, execute_query_body.
  destruct (negb (starts_with _ _)); [simpl; lia|].
  destruct (negb (_is_query_safe query)); [simpl; lia|].
  destruct (with_connection drv (cursor_body drv query)) as [r tr] eqn:E.
  assert (Hc : length (List.filter is_connect tr) <= MAX_SQL_ATTEMPTS).
  { eapply conn_loop_connects; [|exact E].
    unfold cursor_body. destruct (execute_outcome drv query); reflexivity. }
  destruct r; simpl; rewrite ?List.filter_app, ?app_nil_r, ?length_app; simpl; lia.
Qed.

(** X18: when the environment is not configured, or all connection attempts
    fail, an accepted query is answered with "Unexpected database error"
    and nothing is executed. *)
Theorem execute_query_unreachable (drv : driver) (query : pystr) :
  early_rejected query = false ->
  (env_set drv = false \/
   forall n, n < MAX_SQL_ATTEMPTS -> exists msg, connect_fails drv n = Some msg) ->
  execute_query drv query = (Ret ([], Some (lit "Unexpected database error")), []).
Proof.
  unfold early_rejected, execute_query, execute_query_body. intros Hq Hd.
  apply orb_false_iff in Hq as [H1 H2]. rewrite H1, H2.
  unfold with_connection, MAX_SQL_ATTEMPTS in *. simpl.
  destruct Hd as [He|Hf]; [rewrite He; reflexivity|].
  destruct (env_set drv); [|reflexivity].
  destruct (Hf 0 ltac:(lia)) as [m0 ->]. destruct (Hf 1 ltac:(lia)) as [m1 ->].
  destruct (Hf 2 ltac:(lia)) as [m2 ->]. reflexivity.
Qed.

Lemma execute_query_unreachable_witness :
  let drv := {| env_set := true; connect_fails := fun _ => Some (lit "timeout");
                execute_outcome := fun _ => XNoDescription; commit_fails := None |} in
  early_rejected (lit "select 1") = false /\
  (env_set drv = false \/
   forall n, n < MAX_SQL_ATTEMPTS -> exists msg, connect_fails drv n = Some msg) /\
  execute_query drv (lit "select 1") = (Ret ([], Some (lit "Unexpected database error")), []).
Proof.
  intros drv.
  assert (H1 : early_rejected (lit "select 1") = false) by (vm_compute; reflexivity).
  assert (H2 : env_set drv = false \/
               forall n, n < MAX_SQL_ATTEMPTS -> exists msg, connect_fails drv n = Some msg)
    by (right; intros n _; exists (lit "timeout"); reflexivity).
  split; [exact H1|]. split; [exact H2|]. exact (execute_query_unreachable _ _ H1 H2).
Defined.

Lemma conn_loop_executes {A} (drv : driver) (body : M A) (yielded : bool) (k attempt : nat)
    (r : result A) (tr : list event) (q : pystr) :
  conn_loop drv body yielded k attempt = (r, tr) -> In (EvExecute q) tr -> In (EvExecute q) body.2.
Proof.
  revert yielded attempt r tr. induction k as [|k IH]; intros yielded attempt r tr H Hq; simpl in H.
  - injection H as _ <-. contradiction.
  - destruct (env_set drv); simpl in H; [|injection H as _ <-; contradiction].
    destruct (connect_fails drv attempt) as [msg|]; [eapply IH; eassumption|].
    destruct yielded; simpl in H; [injection H as _ <-; destruct Hq as [[=]|[]]|].
    destruct body as [[a|e0] tb]; simpl.
    + destruct (commit_fails drv) as [msg|].
      * destruct (conn_loop drv (Ret a, tb) true k (S attempt)) as [r' tr'] eqn:E.
        injection H as _ <-. destruct Hq as [[=]|Hq].
        apply in_app_iff in Hq as [Hq|[[=]|[[=]|Hq]]]; [exact Hq|]. exact (IH _ _ _ _ E Hq).
      * injection H as _ <-. destruct Hq as [[=]|Hq].
        apply in_app_iff in Hq as [Hq|[[=]|[[=]|[]]]]. exact Hq.
    + destruct (is_pyodbc e0).
      * destruct (conn_loop drv (Raise e0, tb) true k (S attempt)) as [r' tr'] eqn:E.
        injection H as _ <-. destruct Hq as [[=]|Hq].
        apply in_app_iff in Hq as [Hq|[[=]|[[=]|Hq]]]; [exact Hq|]. exact (IH _ _ _ _ E Hq).
      * injection H as _ <-. destruct Hq as [[=]|Hq].
        apply in_app_iff in Hq as [Hq|[[=]|[[=]|[]]]]. exact Hq.
Qed.

Lemma execute_query_executes (drv : driver) (query q : pystr) :
  In (EvExecute q) (execute_query drv query).2 -> q = query.
Proof.
  unfold execute_query, execute_query_body.
  destruct (negb (starts_with _ _)); [simpl; tauto|].
  destruct (negb (_is_query_safe query)); [simpl; tauto|].
  destruct (with_connection drv (cursor_body drv query)) as [r tr] eqn:E.
  intros Hq. assert (Hq' : In (EvExecute q) tr) by (destruct r; simpl in Hq; rewrite ?app_nil_r in Hq; exact Hq).
  apply (conn_loop_executes _ _ _ _ _ _ _ _ E) in Hq'.
  unfold cursor_body in Hq'. destruct (execute_outcome drv query); simpl in Hq';
    destruct Hq' as [[= ->]|[]]; reflexivity.
Qed.

Lemma send_long_message_in (text m : pystr) :
  In m (send_long_message text) -> 1 <= length m <= 4096.
Proof.
  unfold send_long_message, py_range. intros H.
  apply in_map_iff in H as (k & <- & Hk). apply range_from_bounds in Hk.
  rewrite length_take, length_drop. lia.
Qed.

Lemma word_not_space (c : ascii) : is_word c = true -> is_space c = false.
Proof. destruct c as [[] [] [] [] [] [] [] []]; intros H; first [reflexivity|discriminate H]. Qed.

Lemma lstrip_cons (c : ascii) (s : pystr) :
  lstrip (c :: s) = if is_space c then lstrip s else c :: s.
Proof. reflexivity. Qed.

Lemma lstrip_app (a : pystr) (c : ascii) (t : pystr) :
  is_space c = false ->
  exists a1 a2, a = a1 ++ a2 /\ lstrip (a ++ c :: t) = a2 ++ c :: t.
Proof.
  intros Hc. induction a as [|x a IH].
  - exists [], []. split; [reflexivity|]. cbn [app]. rewrite lstrip_cons, Hc. reflexivity.
  - cbn [app]. rewrite lstrip_cons. destruct (is_space x).
    + destruct IH as (a1 & a2 & -> & E). exists (x :: a1), a2. split; [reflexivity|exact E].
    + exists [], (x :: a). split; reflexivity.
Qed.

(** Stripping a text around a word that starts and ends with no white
    space removes a prefix of what comes before and a suffix of what
    comes after. *)
Lemma py_strip_framed (a w b : pystr) (c1 c2 : ascii) (w1 w2 : pystr) :
  w = c1 :: w1 -> w = w2 ++ [c2] -> is_space c1 = false -> is_space c2 = false ->
  exists a1 a2 b1 b2, a = a1 ++ a2 /\ b = b2 ++ b1 /\ py_strip (a ++ w ++ b) = a2 ++ w ++ b2.
Proof.
  intros E1 E2 H1 H2. unfold py_strip.
  destruct (lstrip_app a c1 (w1 ++ b) H1) as (a1 & a2 & Ea & La).
  assert (Ew : w ++ b = c1 :: w1 ++ b) by (rewrite E1; reflexivity).
  rewrite Ew, La, <- Ew, !rev_app_distr, <- app_assoc.
  assert (Er : rev w = c2 :: rev w2) by (rewrite E2, rev_app_distr; reflexivity).
  rewrite Er, <- app_comm_cons. destruct (lstrip_app (rev b) c2 (rev w2 ++ rev a2) H2) as (b1 & b2 & Eb & Lb).
  rewrite Lb, app_comm_cons, <- Er. exists a1, a2, (rev b1), (rev b2). split; [exact Ea|]. split.
  - rewrite <- (rev_involutive b), Eb, rev_app_distr. reflexivity.
  - rewrite !rev_app_distr, !rev_involutive, app_assoc. reflexivity.
Qed.

Lemma sep_before_suffix (a1 a2 : pystr) : sep_before (a1 ++ a2) = true -> sep_before a2 = true.
Proof.
  destruct a2 as [|x a2' _] using rev_ind; [reflexivity|].
  unfold sep_before. unfold pystr in *. rewrite app_assoc, !last_snoc. exact id.
Qed.

Lemma sep_after_prefix (b2 b1 : pystr) : sep_after (b2 ++ b1) = true -> sep_after b2 = true.
Proof. destruct b2; [reflexivity|exact id]. Qed.

(** [handle_message] tests [is_greeting] on the stripped text. *)
Lemma greeting_in_message (a w b : pystr) :
  In (py_lower w) greetings -> sep_before a = true -> sep_after b = true ->
  is_greeting (py_strip (a ++ w ++ b)) = true.
Proof.
  intros Hg Ha Hb.
  assert (Hall : forallb word_ends greetings = true) by reflexivity.
  rewrite forallb_forall in Hall. specialize (Hall _ Hg). rewrite word_ends_lower in Hall.
  destruct (word_ends_spec _ Hall) as [(c1 & w1 & E1 & H1) (c2 & w2 & E2 & H2)].
  destruct (py_strip_framed a w b c1 c2 w1 w2 E1 E2 (word_not_space _ H1) (word_not_space _ H2))
    as (a1 & a2 & b1 & b2 & Ea & Eb & ->).
  apply greeting_search; [exact Hg| |].
  - rewrite Ea in Ha. exact (sep_before_suffix _ _ Ha).
  - rewrite Eb in Hb. exact (sep_after_prefix _ _ Hb).
Qed.

Section BotProps.
Context (drv : driver) (llm : pystr -> nat -> option pystr)
        (format_response : pystr -> list row -> option pystr).

(** Every reply of [handle_message], and every database action of its
    [execute_query] call, comes from the answer branch it takes. *)
Lemma handle_message_cases (u : Z) (now : Q) (text : pystr) (st : user_requests) :
  let '(replies, st', tr) := handle_message drv llm format_response u now text st in
  st' = (check_rate_limit u now st).2 /\
  ((replies = [ReplyTooManyRequests] \/ replies = [ReplyHello] \/ replies = [ReplyNoQuery]) /\ tr = []
   \/ exists query, generate_sql (llm (py_strip text)) = Some query /\
        tr = (execute_query drv query).2 /\
        (forall e, In (ReplyError e) replies ->
           contains (lit "invalid column name") (py_lower e) = false) /\
        (forall c, In (ReplyText c) replies -> 1 <= length c <= 4096)).
Proof.
  unfold handle_message. destruct (check_rate_limit u now st) as [allowed st1] eqn:Ec. simpl.
  destruct allowed; simpl; [|split; [reflexivity|left; split; [left; reflexivity|reflexivity]]].
  destruct (is_greeting (py_strip text)); [split; [reflexivity|left; split; [right; left; reflexivity|reflexivity]]|].
  destruct (generate_sql (llm (py_strip text))) as [[|c0 q0]|] eqn:Eg;
    [split; [reflexivity|left; split; [right; right; reflexivity|reflexivity]]| |
     split; [reflexivity|left; split; [right; right; reflexivity|reflexivity]]].
  set (query := c0 :: q0) in *.
  destruct (execute_query drv query) as [[[results error]|e] tr] eqn:Ee;
    [destruct error as [[|c1 e1]|];
       [destruct results; [|destruct (format_response _ _)]
       |destruct (contains _ _) eqn:Ei
       |destruct results; [|destruct (format_response _ _)]]|];
    simpl; (split; [reflexivity|right; exists query; split; [reflexivity|];
                    rewrite Ee; split; [reflexivity|]; split]);
    intros ? Hin;
    first [ solve [destruct Hin as [[=]|[]]]
          | destruct Hin as [[= Heq]|[]]; subst; assumption
          | apply in_map_iff in Hin as (c' & [=] & Hin); subst;
            apply send_long_message_in in Hin; exact Hin ].
Qed.

(** X20: a user with [MAX_REQUESTS_PER_MINUTE] requests in the last minute
    gets only the "Too many requests" reply: no model call, no database
    access, and the record keeps only the requests of the last minute. *)
Theorem handle_message_rate_limited (u : Z) (now : Q) (text : pystr) (st : user_requests) :
  MAX_REQUESTS_PER_MINUTE <= length (List.filter (fresh now) (window u st)) ->
  handle_message drv llm format_response u now text st
  = ([ReplyTooManyRequests], <[u := List.filter (fresh now) (window u st)]> st, []).
Proof.
  intros H. unfold handle_message. rewrite check_rate_limit_eq.
  apply Nat.leb_le in H. rewrite H. reflexivity.
Qed.

(** X21: a message with a greeting word, in any letter case, standing as a
    whole word, gets only the hello reply when the rate limit allows it:
    no SQL is generated and the database is not touched. *)
Theorem handle_message_greeting (u : Z) (now : Q) (a w b : pystr) (st : user_requests) :
  (check_rate_limit u now st).1 = true ->
  In (py_lower w) greetings -> sep_before a = true -> sep_after b = true ->
  handle_message drv llm format_response u now (a ++ w ++ b) st
  = ([ReplyHello], (check_rate_limit u now st).2, []).
Proof.
  intros Hr Hg Ha Hb. pose proof (greeting_in_message a w b Hg Ha Hb) as G.
  remember (a ++ w ++ b) as text eqn:Et. clear Et.
  unfold handle_message. destruct (check_rate_limit u now st) as [allowed st1].
  simpl in Hr. subst allowed. simpl. rewrite G. reflexivity.
Qed.

(** X23: the statements that the [execute_query] call of [handle_message]
    sends to the database are the SQL generated from the stripped message,
    and hold no [;], [/] or [\]. *)
Theorem handle_message_executes_generated (u : Z) (now : Q) (text : pystr)
    (st : user_requests) (q : pystr) :
  In (EvExecute q) (handle_message drv llm format_response u now text st).2 ->
  generate_sql (llm (py_strip text)) = Some q /\
  ~ In ";"%char q /\ ~ In "/"%char q /\ ~ In "\"%char q.
Proof.
  pose proof (handle_message_cases u now text st) as H.
  destruct (handle_message drv llm format_response u now text st) as [[replies st'] tr].
  simpl. intros Hin. destruct H as [_ [[_ ->]|(query & Eg & -> & _ & _)]]; [destruct Hin|].
  apply execute_query_executes in Hin. subst q. split; [exact Eg|].
  split; [|split]; intros Hc; apply (generate_sql_chars _ _ _ Eg) in Hc as [H1 H2];
    first [exact (diff_true_false H1)|exact (diff_true_false H2)].
Qed.

(** X24: when the query returns rows and [format_response] gives [response],
    the user receives [response] cut into chunks of 1 to 4096 characters
    that put together give [response] back, and nothing else. *)
Theorem handle_message_delivers_response (u : Z) (now : Q) (text : pystr)
    (st : user_requests) (query : pystr) (rows : list row) (response : pystr) (tr : list event) :
  (check_rate_limit u now st).1 = true -> is_greeting (py_strip text) = false ->
  generate_sql (llm (py_strip text)) = Some query -> query <> [] ->
  execute_query drv query = (Ret (rows, None), tr) -> rows <> [] ->
  format_response (py_strip text) rows = Some response ->
  exists chunks,
    (handle_message drv llm format_response u now text st).1
      = (map ReplyText chunks, (check_rate_limit u now st).2) /\
    concat chunks = response /\ Forall (fun c => 1 <= length c <= 4096) chunks.
Proof.
  intros Hr Hg Eg Hq Ee Hrows Ef. exists (send_long_message response).
  split; [|split].
  - unfold handle_message. destruct (check_rate_limit u now st) as [allowed st1].
    simpl in Hr. subst allowed. simpl. rewrite Hg, Eg.
    destruct query as [|c0 q0]; [contradiction|]. rewrite Ee.
    destruct rows as [|r0 rows]; [contradiction|]. rewrite Ef. reflexivity.
  - unfold send_long_message, py_range. rewrite range_from_concat by lia. reflexivity.
  - apply List.Forall_forall. intros c Hc. exact (send_long_message_in _ _ Hc).
Qed.

End BotProps.

Lemma handle_message_rate_limited_witness :
  MAX_REQUESTS_PER_MINUTE <= length (List.filter (fresh 30) (window 1 (<[1%Z := ten_times]> ∅))) /\
  handle_message healthy_driver sql_model ok_format 1 30 (lit "hello") (<[1%Z := ten_times]> ∅)
  = ([ReplyTooManyRequests],
     <[1%Z := List.filter (fresh 30) (window 1 (<[1%Z := ten_times]> ∅))]> (<[1%Z := ten_times]> ∅), []).
Proof.
  assert (H : MAX_REQUESTS_PER_MINUTE
              <= length (List.filter (fresh 30) (window 1 (<[1%Z := ten_times]> ∅))))
    by (apply Nat.leb_le; vm_compute; reflexivity).
  split; [exact H|]. exact (handle_message_rate_limited _ _ _ _ _ _ _ H).
Defined.

Lemma handle_message_greeting_witness :
  (check_rate_limit 1 0 ∅).1 = true /\ In (py_lower (lit "Hello")) greetings /\
  sep_before (lit "  ") = true /\ sep_after (lit ", show customers") = true /\
  handle_message healthy_driver sql_model ok_format 1 0
    (lit "  " ++ lit "Hello" ++ lit ", show customers") ∅
  = ([ReplyHello], (check_rate_limit 1 0 ∅).2, []).
Proof.
  assert (Hr : (check_rate_limit 1 0 ∅).1 = true) by (vm_compute; reflexivity).
  assert (Hg : In (py_lower (lit "Hello")) greetings) by (simpl; auto).
  split; [exact Hr|]. split; [exact Hg|]. split; [reflexivity|]. split; [reflexivity|].
  apply handle_message_greeting; [exact Hr|exact Hg|reflexivity|reflexivity].
Defined.

Lemma handle_message_executes_generated_witness :
  In (EvExecute (lit "select top 50 * FROM Customers"))
    (handle_message healthy_driver sql_model ok_format 1 0 (lit "show customers") ∅).2 /\
  generate_sql (sql_model (py_strip (lit "show customers")))
    = Some (lit "select top 50 * FROM Customers") /\
  ~ In ";"%char (lit "select top 50 * FROM Customers").
Proof.
  assert (E : (handle_message healthy_driver sql_model ok_format 1 0 (lit "show customers") ∅).2
              = [EvConnect 0; EvExecute (lit "select top 50 * FROM Customers"); EvCommit; EvClose])
    by (vm_compute; reflexivity).
  assert (H : In (EvExecute (lit "select top 50 * FROM Customers"))
                (handle_message healthy_driver sql_model ok_format 1 0 (lit "show customers") ∅).2)
    by (rewrite E; right; left; reflexivity).
  split; [exact H|].
  destruct (handle_message_executes_generated _ _ _ _ _ _ _ _ H) as (Eg & Hs & _).
  split; [exact Eg|exact Hs].
Defined.

Lemma handle_message_delivers_response_witness :
  execute_query healthy_driver (lit "select top 50 * FROM Customers")
    = (Ret ([[(lit "x", CNum 1)]], None),
       [EvConnect 0; EvExecute (lit "select top 50 * FROM Customers"); EvCommit; EvClose]) /\
  exists chunks,
    (handle_message healthy_driver sql_model ok_format 1 0 (lit "show customers") ∅).1
      = (map ReplyText chunks, (check_rate_limit 1 0 ∅).2) /\
    concat chunks = lit "ok" /\ Forall (fun c => 1 <= length c <= 4096) chunks.
Proof.
  assert (Ee : execute_query healthy_driver (lit "select top 50 * FROM Customers")
    = (Ret ([[(lit "x", CNum 1)]], None),
       [EvConnect 0; EvExecute (lit "select top 50 * FROM Customers"); EvCommit; EvClose]))
    by (vm_compute; reflexivity).
  split; [exact Ee|].
  apply (handle_message_delivers_response healthy_driver sql_model ok_format 1 0
           (lit "show customers") ∅ (lit "select top 50 * FROM Customers") [[(lit "x", CNum 1)]]
           (lit "ok") [EvConnect 0; EvExecute (lit "select top 50 * FROM Customers"); EvCommit; EvClose]);
    [vm_compute; reflexivity|vm_compute; reflexivity|vm_compute; reflexivity
    |discriminate|exact Ee|discriminate|reflexivity].
Defined.
